(** * Subnet Engine: a shallow embedding of the [SubnetEngine] module

    The engine is a set of pure JavaScript functions over dotted-decimal
    address texts and prefix lengths.  Numbers that the engine manipulates are
    integers well below 2^53, so they are modelled as [Z]; the 32-bit
    conversions that JavaScript's bit operators perform are written out.
    Strings are [string]s whose characters stand for code units below 256. *)

From Stdlib Require Import ZArith List Bool Lia Ascii String DecimalString.
From Stdlib Require DecimalFacts DecimalPos.
Import ListNotations.

Open Scope string_scope.
Open Scope Z_scope.

(** ** JavaScript primitives used by the engine *)

Module JS.

(** A Number that may be NaN ([parseInt] of a segment without digits). *)
Definition number := option Z.
Definition NaN : number := None.

(** ToUint32 and ToInt32 of ECMA-262 on integral values. *)
Definition ToUint32 (x : Z) : Z := x mod 2 ^ 32.

Definition ToInt32 (x : Z) : Z :=
  let u := x mod 2 ^ 32 in
  if u >=? 2 ^ 31 then u - 2 ^ 32 else u.

(** ToInt32(NaN) is +0. *)
Definition ToInt32N (x : number) : Z :=
  match x with Some z => ToInt32 z | None => 0 end.

Definition ToUint32N (x : number) : Z :=
  match x with Some z => ToUint32 z | None => 0 end.

(** The shift count of [<<] and [>>>] is ToUint32(count) & 0x1F. *)
Definition shiftCount (k : Z) : Z := Z.land (ToUint32 k) 31.

(** [a << k] *)
Definition shl (a k : Z) : Z :=
  ToInt32 (Z.shiftl (ToInt32 a) (shiftCount k)).

(** [a >>> k] *)
Definition ushr (a k : Z) : Z :=
  Z.shiftr (ToUint32 a) (shiftCount k).

(** [a & b] and [a | b] *)
Definition band (a b : Z) : Z := Z.land (ToInt32 a) (ToInt32 b).
Definition bor (a b : Z) : Z := Z.lor (ToInt32 a) (ToInt32 b).

(** [x + y] where [y] may be NaN. *)
Definition addN (x : Z) (y : number) : number :=
  match y with Some z => Some (x + z) | None => None end.

(** Comparisons against an integer constant; any comparison with NaN is
    false. *)
Definition geN (x : number) (c : Z) : bool :=
  match x with Some z => c <=? z | None => false end.
Definition leN (x : number) (c : Z) : bool :=
  match x with Some z => z <=? c | None => false end.

(** [Math.pow(2, e)] for an integral exponent [e >= 0]. *)
Definition Math_pow (b e : Z) : Z := b ^ e.

(** Number.prototype.toString() on an integral value of magnitude below
    10^21: decimal digits, a leading minus sign for negatives, and "NaN".
    (From 10^21 on JavaScript switches to exponent notation; nothing here
    renders a number that large.) *)
Definition Z_toString (z : Z) : string :=
  NilEmpty.string_of_int (Z.to_int z).

Definition toString (x : number) : string :=
  match x with Some z => Z_toString z | None => "NaN" end.

(** [s.split(sep)] for a one-character separator. *)
Fixpoint split (sep : ascii) (s : string) : list string :=
  match s with
  | EmptyString => [EmptyString]
  | String c rest =>
      if Ascii.eqb c sep then EmptyString :: split sep rest
      else match split sep rest with
           | [] => [String c EmptyString]
           | seg :: segs => String c seg :: segs
           end
  end.

(** [a.join(sep)] on an array of strings. *)
Fixpoint join (sep : string) (l : list string) : string :=
  match l with
  | [] => EmptyString
  | [x] => x
  | x :: rest => x ++ sep ++ join sep rest
  end.

(** StrWhiteSpaceChar restricted to code units below 256:
    TAB, LF, VT, FF, CR, SP and NBSP. *)
Definition isWhiteSpace (c : ascii) : bool :=
  let n := nat_of_ascii c in
  (Nat.eqb n 9 || Nat.eqb n 10 || Nat.eqb n 11 || Nat.eqb n 12
   || Nat.eqb n 13 || Nat.eqb n 32 || Nat.eqb n 160)%bool.

Fixpoint trimStart (s : string) : string :=
  match s with
  | String c rest => if isWhiteSpace c then trimStart rest else s
  | EmptyString => EmptyString
  end.

Definition digitValue (c : ascii) : option Z :=
  let n := nat_of_ascii c in
  if (Nat.leb 48 n && Nat.leb n 57)%bool
  then Some (Z.of_nat n - 48) else None.

(** The longest prefix of decimal digits, as a mathematical integer; [acc]
    is [None] until a digit has been read. *)
Fixpoint parseDigits (s : string) (acc : option Z) : option Z :=
  match s with
  | String c rest =>
      match digitValue c with
      | Some d =>
          parseDigits rest
            (Some (10 * match acc with Some a => a | None => 0 end + d))
      | None => acc
      end
  | EmptyString => acc
  end.

(** [parseInt(s, 10)]: skip leading white space, read an optional sign, then
    the longest run of decimal digits; NaN when there is none.  The value is
    the mathematical integer of the digits; JavaScript rounds it to a double
    from 2^53 on, which changes no comparison against the constants 0 to 255
    that the engine makes. *)
Definition parseInt (s : string) : number :=
  let S := trimStart s in
  let '(sign, S') :=
    match S with
    | String "-" r => (-1, r)
    | String "+" r => (1, r)
    | _ => (1, S)
    end in
  match parseDigits S' None with
  | Some m => Some (sign * m)
  | None => NaN
  end.

(** Number.prototype.toString(2) on an integral value: binary digits, most
    significant first. *)
Fixpoint binaryDigits (p : positive) (acc : string) : string :=
  match p with
  | xH => String "1" acc
  | xO q => binaryDigits q (String "0" acc)
  | xI q => binaryDigits q (String "1" acc)
  end.

Definition Z_toString2 (z : Z) : string :=
  match z with
  | Z0 => "0"
  | Zpos p => binaryDigits p EmptyString
  | Zneg p => String "-" (binaryDigits p EmptyString)
  end.

Definition toString2 (x : number) : string :=
  match x with Some z => Z_toString2 z | None => "NaN" end.

(** The first [n] characters of [pad] repeated; [rest] is what is left of the
    current copy. *)
Fixpoint cycle (pad rest : string) (n : nat) : string :=
  match n with
  | O => EmptyString
  | S n' =>
      match rest with
      | String c r => String c (cycle pad r n')
      | EmptyString =>
          match pad with
          | String c r => String c (cycle pad r n')
          | EmptyString => EmptyString
          end
      end
  end.

(** [s.padStart(targetLength, padString)] *)
Definition padStart (s : string) (targetLength : nat) (padString : string)
  : string :=
  if Nat.leb targetLength (String.length s) then s
  else match padString with
       | EmptyString => s
       | _ => cycle padString padString (targetLength - String.length s) ++ s
       end.

(** [s.trimEnd()] and [s.trim()], with the white space of [isWhiteSpace]. *)
Fixpoint trimEnd (s : string) : string :=
  match s with
  | EmptyString => EmptyString
  | String c rest =>
      match trimEnd rest with
      | EmptyString => if isWhiteSpace c then EmptyString else String c EmptyString
      | r => String c r
      end
  end.

Definition trim (s : string) : string := trimEnd (trimStart s).

End JS.

(** ** The engine *)

Module SubnetEngine.
Import JS.

Definition isValidIP (ip : string) : bool :=
  let octets := split "." ip in
  if negb (Nat.eqb (List.length octets) 4) then false
  else forallb (fun octet =>
         let num := parseInt octet in
         geN num 0 && leN num 255 && String.eqb octet (toString num))
       octets.

(** Prefixes are integral here, so [Number.isInteger] always holds. *)
Definition Number_isInteger (_ : Z) : bool := true.

Definition isValidPrefix (prefix : Z) : bool :=
  (0 <=? prefix) && (prefix <=? 32) && Number_isInteger prefix.

Definition ipToInt (ip : string) : Z :=
  ToUint32N
    (fold_left (fun int octet => addN (shl (ToInt32N int) 8) (parseInt octet))
               (split "." ip) (Some 0)).

Definition intToIP (int : Z) : string :=
  join "." (map Z_toString
              [ band (ushr int 24) 255;
                band (ushr int 16) 255;
                band (ushr int 8) 255;
                band int 255 ]).

Definition prefixToMask (prefix : Z) : string :=
  let mask := ushr (shl 4294967295 (32 - prefix)) 0 in
  intToIP mask.

Definition getNetworkAddress (ip : string) (prefix : Z) : string :=
  let ipInt := ipToInt ip in
  let maskInt := ushr (shl 4294967295 (32 - prefix)) 0 in
  let networkInt := ushr (band ipInt maskInt) 0 in
  intToIP networkInt.

Definition getBroadcastAddress (ip : string) (prefix : Z) : string :=
  let networkInt := ipToInt (getNetworkAddress ip prefix) in
  let hostMask := ushr (ushr 4294967295 prefix) 0 in
  let broadcastInt := ushr (bor networkInt hostMask) 0 in
  intToIP broadcastInt.

Definition getFirstUsable (networkAddr : string) : string :=
  let networkInt := ipToInt networkAddr in
  intToIP (ushr (networkInt + 1) 0).

Definition getLastUsable (broadcastAddr : string) : string :=
  let broadcastInt := ipToInt broadcastAddr in
  intToIP (ushr (broadcastInt - 1) 0).

Definition getUsableHosts (prefix : Z) : Z :=
  if prefix >=? 31 then 0 else Math_pow 2 (32 - prefix) - 2.

Definition getTotalAddresses (prefix : Z) : Z :=
  Math_pow 2 (32 - prefix).

Definition getNetworkClass (ip : string) : string :=
  let firstOctet := parseInt (hd EmptyString (split "." ip)) in
  if geN firstOctet 1 && leN firstOctet 126 then "A"
  else if geN firstOctet 128 && leN firstOctet 191 then "B"
  else if geN firstOctet 192 && leN firstOctet 223 then "C"
  else if geN firstOctet 224 && leN firstOctet 239 then "D (Multicast)"
  else if geN firstOctet 240 && leN firstOctet 255 then "E (Reserved)"
  else "Unknown".

(** One row of a calculation. *)
Record Subnet := mkSubnet {
  subnetNumber : Z;
  networkAddress : string;
  broadcastAddress : string;
  firstUsable : string;
  lastUsable : string;
  usableHosts : Z;
  subnetMask : string;
  prefix : Z;
  totalAddresses : Z
}.

(** [calculateSubnets] either throws an [Error] with a message or returns
    the whole array. *)
Inductive result :=
| Throw (message : string)
| Return (subnets : list Subnet).

(** The body of the [for] loop: the record pushed at index [i]. *)
Definition subnetAt (baseNetworkInt subnetSize newPrefix i : Z) : Subnet :=
  let subnetNetworkInt := ushr (baseNetworkInt + i * subnetSize) 0 in
  let networkAddr := intToIP subnetNetworkInt in
  let broadcastAddr := intToIP (ushr (subnetNetworkInt + subnetSize - 1) 0) in
  {| subnetNumber := i + 1;
     networkAddress := networkAddr;
     broadcastAddress := broadcastAddr;
     firstUsable := getFirstUsable networkAddr;
     lastUsable := getLastUsable broadcastAddr;
     usableHosts := getUsableHosts newPrefix;
     subnetMask := prefixToMask newPrefix;
     prefix := newPrefix;
     totalAddresses := getTotalAddresses newPrefix |}.

(** [for (let i = 0; i < numSubnets; i++) subnets.push(...)], with the
    number of iterations still allowed as fuel. *)
Fixpoint subnetsLoop (fuel : nat) (baseNetworkInt subnetSize numSubnets
                      newPrefix i : Z) (subnets : list Subnet)
  : list Subnet :=
  match fuel with
  | O => subnets
  | S fuel' =>
      if i <? numSubnets then
        subnetsLoop fuel' baseNetworkInt subnetSize numSubnets newPrefix
          (i + 1)
          (subnets ++ [subnetAt baseNetworkInt subnetSize newPrefix i])%list
      else subnets
  end.

Definition singleNetwork (baseIP : string) (basePrefix : Z) : list Subnet :=
  let networkAddr := getNetworkAddress baseIP basePrefix in
  let broadcastAddr := getBroadcastAddress baseIP basePrefix in
  [ {| subnetNumber := 1;
       networkAddress := networkAddr;
       broadcastAddress := broadcastAddr;
       firstUsable := getFirstUsable networkAddr;
       lastUsable := getLastUsable broadcastAddr;
       usableHosts := getUsableHosts basePrefix;
       subnetMask := prefixToMask basePrefix;
       prefix := basePrefix;
       totalAddresses := getTotalAddresses basePrefix |} ].

(** [newPrefix] is [None] for [null] (also the default of the parameter). *)
Definition calculateSubnets (baseIP : string) (basePrefix : Z)
           (newPrefix : option Z) : result :=
  if negb (isValidIP baseIP) then Throw "Invalid IP address"
  else if negb (isValidPrefix basePrefix) then Throw "Invalid base prefix"
  else
    match newPrefix with
    | None => Return (singleNetwork baseIP basePrefix)
    | Some newPrefix =>
        if newPrefix =? basePrefix
        then Return (singleNetwork baseIP basePrefix)
        else if negb (isValidPrefix newPrefix)
        then Throw "Invalid new prefix"
        else if newPrefix <=? basePrefix
        then Throw "New prefix must be larger than base prefix"
        else
          let baseNetworkAddr := getNetworkAddress baseIP basePrefix in
          let baseNetworkInt := ipToInt baseNetworkAddr in
          let subnetSize := Math_pow 2 (32 - newPrefix) in
          let numSubnets := Math_pow 2 (newPrefix - basePrefix) in
          Return (subnetsLoop (Z.to_nat numSubnets) baseNetworkInt
                    subnetSize numSubnets newPrefix 0 [])
    end.

Definition toBinary8 (num : number) : string :=
  padStart (toString2 num) 8 "0".

Definition ipToBinary (ip : string) : string :=
  join "." (map (fun octet => toBinary8 (parseInt octet)) (split "." ip)).

Definition isPrivateIP (ip : string) : bool :=
  let ipInt := ipToInt ip in
  if (ipToInt "10.0.0.0" <=? ipInt) && (ipInt <=? ipToInt "10.255.255.255")
  then true
  else if (ipToInt "172.16.0.0" <=? ipInt) && (ipInt <=? ipToInt "172.31.255.255")
  then true
  else if (ipToInt "192.168.0.0" <=? ipInt) && (ipInt <=? ipToInt "192.168.255.255")
  then true
  else false.

(** The objects that [getBinaryBreakdown] returns. *)
Module Breakdown.

Record part := mkPart {
  decimal : string;
  octets : list number;
  binary : list string;
  fullBinary : string
}.

(** The [mask] object: the four fields of a part and the prefix. *)
Record maskPart := mkMaskPart {
  fields : part;
  prefix : Z
}.

Record t := mk {
  ip : part;
  mask : maskPart;
  network : part;
  networkBits : Z;
  hostBits : Z
}.

End Breakdown.

Definition getBinaryBreakdown (ip : string) (prefix : Z) : Breakdown.t :=
  let octets := map parseInt (split "." ip) in
  let mask := prefixToMask prefix in
  let maskOctets := map parseInt (split "." mask) in
  let networkAddr := getNetworkAddress ip prefix in
  let networkOctets := map parseInt (split "." networkAddr) in
  {| Breakdown.ip :=
       {| Breakdown.decimal := ip;
          Breakdown.octets := octets;
          Breakdown.binary := map toBinary8 octets;
          Breakdown.fullBinary := ipToBinary ip |};
     Breakdown.mask :=
       {| Breakdown.fields :=
            {| Breakdown.decimal := mask;
               Breakdown.octets := maskOctets;
               Breakdown.binary := map toBinary8 maskOctets;
               Breakdown.fullBinary := ipToBinary mask |};
          Breakdown.prefix := prefix |};
     Breakdown.network :=
       {| Breakdown.decimal := networkAddr;
          Breakdown.octets := networkOctets;
          Breakdown.binary := map toBinary8 networkOctets;
          Breakdown.fullBinary := ipToBinary networkAddr |};
     Breakdown.networkBits := prefix;
     Breakdown.hostBits := 32 - prefix |}.

(** The object that [getCalculationSummary] returns. *)
Module Summary.

Record t := mk {
  baseNetwork : string;
  basePrefix : Z;
  newPrefix : option Z;
  effectivePrefix : Z;
  subnetMask : string;
  totalSubnets : Z;
  hostsPerSubnet : Z;
  totalAddresses : Z;
  networkClass : string;
  isPrivate : bool;
  subnets : list Subnet
}.

End Summary.

Inductive summaryResult :=
| ThrowSummary (message : string)
| ReturnSummary (summary : Summary.t).

(** [newPrefix || basePrefix]: [null] and 0 are falsy. *)
Definition effective (newPrefix : option Z) (basePrefix : Z) : Z :=
  match newPrefix with
  | Some n => if n =? 0 then basePrefix else n
  | None => basePrefix
  end.

Definition getCalculationSummary (baseIP : string) (basePrefix : Z)
           (newPrefix : option Z) : summaryResult :=
  let effectivePrefix := effective newPrefix basePrefix in
  match calculateSubnets baseIP basePrefix newPrefix with
  | Throw message => ThrowSummary message
  | Return subnets =>
      ReturnSummary
        {| Summary.baseNetwork := getNetworkAddress baseIP basePrefix;
           Summary.basePrefix := basePrefix;
           Summary.newPrefix := newPrefix;
           Summary.effectivePrefix := effectivePrefix;
           Summary.subnetMask := prefixToMask effectivePrefix;
           Summary.totalSubnets := Z.of_nat (List.length subnets);
           Summary.hostsPerSubnet := getUsableHosts effectivePrefix;
           Summary.totalAddresses := getTotalAddresses effectivePrefix;
           Summary.networkClass := getNetworkClass baseIP;
           Summary.isPrivate := isPrivateIP baseIP;
           Summary.subnets := subnets |}
  end.

End SubnetEngine.

(** ** The calculate handler of the page *)

Module App.
Import JS SubnetEngine.

(** What one click on the calculate button ends in: the calculation that it
    stored in [state.lastCalculation], if it got that far, and the message
    that it passed to [showError], if any. *)
Record outcome := mkOutcome {
  stored : option (Summary.t * Breakdown.t);
  shown : option string
}.

(** The [try] block from the engine calls on.  The steps that follow the
    assignment to [state.lastCalculation] ([displayResults],
    [displayLearningContent] and the calls on the results section) write to
    the page; [display] gives the message of the exception that they throw,
    if any.  Every exception of the block reaches the [catch], which shows
    it. *)
Definition calculate (display : Summary.t -> Breakdown.t -> option string)
           (baseIP : string) (basePrefix : Z) (newPrefix : option Z)
  : outcome :=
  match getCalculationSummary baseIP basePrefix newPrefix with
  | ThrowSummary message =>
      {| stored := None; shown := Some ("Calculation error: " ++ message) |}
  | ReturnSummary summary =>
      let binary := getBinaryBreakdown baseIP basePrefix in
      match display summary binary with
      | Some message =>
          {| stored := Some (summary, binary);
             shown := Some ("Calculation error: " ++ message) |}
      | None => {| stored := Some (summary, binary); shown := None |}
      end
  end.

(** A validation message: [showError] and [return]. *)
Definition reject (message : string) : outcome :=
  {| stored := None; shown := Some message |}.

(** The arguments are the display steps and the values of the three input
    fields.  A prefix field without digits parses to NaN, which
    [isValidPrefix] rejects. *)
Definition handleCalculate (display : Summary.t -> Breakdown.t -> option string)
           (baseIPValue basePrefixValue newPrefixValue : string)
  : outcome :=
  let baseIP := trim baseIPValue in
  let basePrefix := parseInt basePrefixValue in
  let newPrefixValue := trim newPrefixValue in
  let newPrefix : option number :=
    match newPrefixValue with
    | EmptyString => None
    | _ => Some (parseInt newPrefixValue)
    end in
  if negb (isValidIP baseIP) then
    reject "Invalid IP address. Please enter a valid IPv4 address (e.g., 192.168.1.0)"
  else
    match basePrefix with
    | None =>
        reject "Invalid base prefix. Please enter a value between 8 and 30."
    | Some basePrefix =>
        if negb (isValidPrefix basePrefix) then
          reject "Invalid base prefix. Please enter a value between 8 and 30."
        else
          match newPrefix with
          | None => calculate display baseIP basePrefix None
          | Some None =>
              reject "Invalid new prefix. Please enter a value between 8 and 30, or leave empty."
          | Some (Some newPrefix) =>
              if negb (isValidPrefix newPrefix) then
                reject "Invalid new prefix. Please enter a value between 8 and 30, or leave empty."
              else if newPrefix <=? basePrefix then
                reject "New prefix must be larger than base prefix to split the network."
              else calculate display baseIP basePrefix (Some newPrefix)
          end
    end.

End App.

(** ** The exporter *)

Module Exporter.
Import JS SubnetEngine.

Definition padOffset (offset : Z) : string :=
  padStart (Z_toString offset) 10 "0".

(** The line feed of the templates. *)
Definition LF : string := String (ascii_of_nat 10) EmptyString.

(** One data row of the CSV text. *)
Definition csvRow (subnet : Subnet) : string :=
  Z_toString (subnetNumber subnet) ++ ","
  ++ networkAddress subnet ++ ","
  ++ subnetMask subnet ++ ","
  ++ broadcastAddress subnet ++ ","
  ++ firstUsable subnet ++ ","
  ++ lastUsable subnet ++ ","
  ++ Z_toString (usableHosts subnet) ++ ","
  ++ Z_toString (totalAddresses subnet) ++ LF.

Definition csvHeader : string :=
  "Subnet #,Network Address,Subnet Mask,Broadcast Address,First Usable,Last Usable,Usable Hosts,Total Addresses"
  ++ LF.

(** The text that [exportToCSV] hands to [downloadFile]; [generated] is the
    text of [new Date().toLocaleString()].  Reading [subnets[0]] of an empty
    array throws, which is [None] here. *)
Definition exportToCSV (summary : Summary.t) (generated : string)
  : option string :=
  match Summary.subnets summary with
  | [] => None
  | first :: _ =>
      let csv :=
        "Subnet Tutor v2.0 - Export Results" ++ LF
        ++ "Generated: " ++ generated ++ LF
        ++ LF
        ++ "Configuration Summary" ++ LF
        ++ "Base Network," ++ Summary.baseNetwork summary ++ "/"
           ++ Z_toString (Summary.basePrefix summary) ++ LF
        ++ "Subnet Mask," ++ Summary.subnetMask summary ++ LF
        ++ "Effective Prefix,/"
           ++ Z_toString (Summary.effectivePrefix summary) ++ LF
        ++ "Total Subnets,"
           ++ Z_toString (Z.of_nat (List.length (Summary.subnets summary))) ++ LF
        ++ "Hosts per Subnet," ++ Z_toString (usableHosts first) ++ LF
        ++ LF
        ++ csvHeader in
      Some (fold_left (fun csv subnet => csv ++ csvRow subnet)
                      (Summary.subnets summary) csv)
  end.

End Exporter.

Import JS SubnetEngine.

(** ** Vocabulary of the statements *)

Definition isByte (n : Z) : Prop := 0 <= n <= 255.

Definition isUint32 (n : Z) : Prop := 0 <= n < 2 ^ 32.

(** No character of [s] is the separator ".". *)
Fixpoint noDot (s : string) : bool :=
  match s with
  | EmptyString => true
  | String c rest => negb (Ascii.eqb c ".") && noDot rest
  end.

(** The text of four numbers joined by dots. *)
Definition dotted (a b c d : Z) : string :=
  join "." (map Z_toString [a; b; c; d]).

(** What is needed of the decimal rendering of one octet, checked on each
    of the 256 values. *)
Definition octetOk (n : Z) : bool :=
  noDot (Z_toString n)
  && match parseInt (Z_toString n) with
     | Some m => m =? n
     | None => false
     end.

(** [(0xFFFFFFFF << (32 - prefix)) >>> 0] *)
Definition maskInt (prefix : Z) : Z := ushr (shl 4294967295 (32 - prefix)) 0.

(** [(0xFFFFFFFF >>> prefix) >>> 0] *)
Definition hostMask (prefix : Z) : Z := ushr (ushr 4294967295 prefix) 0.

(** The array that a split returns. *)
Definition enumerated (baseIP : string) (basePrefix newPrefix : Z) : list Subnet :=
  map (fun k => subnetAt (ipToInt (getNetworkAddress baseIP basePrefix))
                         (2 ^ (32 - newPrefix)) newPrefix (Z.of_nat k))
      (seq 0 (Z.to_nat (2 ^ (newPrefix - basePrefix)))).

(** The value of a text of binary digits read after [acc]; [None] when a
    character is not a binary digit. *)
Fixpoint parseBits (s : string) (acc : Z) : option Z :=
  match s with
  | EmptyString => Some acc
  | String c rest =>
      if Ascii.eqb c "0" then parseBits rest (2 * acc)
      else if Ascii.eqb c "1" then parseBits rest (2 * acc + 1)
      else None
  end.

(** The integer that four dot-separated groups of binary digits stand for. *)
Definition decodeDottedBinary (s : string) : option Z :=
  match map (fun group => parseBits group 0) (split "." s) with
  | [Some a; Some b; Some c; Some d] =>
      Some (a * 16777216 + b * 65536 + c * 256 + d)
  | _ => None
  end.

(** [n] copies of one character. *)
Fixpoint repeatChar (c : ascii) (n : nat) : string :=
  match n with
  | O => EmptyString
  | S n' => String c (repeatChar c n')
  end.

(** No character of [s] is [sep]. *)
Fixpoint noChar (sep : ascii) (s : string) : bool :=
  match s with
  | EmptyString => true
  | String c rest => negb (Ascii.eqb c sep) && noChar sep rest
  end.

(** The sum of the [totalAddresses] fields. *)
Definition sumTotalAddresses (subnets : list Subnet) : Z :=
  fold_right (fun s acc => totalAddresses s + acc) 0 subnets.

(** The private ranges in terms of the first two octets. *)
Definition privateOctets (a b : Z) : bool :=
  (a =? 10) || ((a =? 172) && (16 <=? b) && (b <=? 31))
  || ((a =? 192) && (b =? 168)).

(** The eight fields of a data row of the CSV export, in column order. *)
Definition csvFields (s : Subnet) : list string :=
  [ Z_toString (subnetNumber s); networkAddress s; subnetMask s;
    broadcastAddress s; firstUsable s; lastUsable s;
    Z_toString (usableHosts s); Z_toString (totalAddresses s) ].

(** ** Facts about the 32-bit conversions *)

Section Conversions.

Lemma ToUint32_small (x : Z) : 0 <= x < 2 ^ 32 -> ToUint32 x = x.
Proof. intros H. unfold ToUint32. now apply Z.mod_small. Qed.

Lemma ToUint32_range (x : Z) : 0 <= ToUint32 x < 2 ^ 32.
Proof. unfold ToUint32. apply Z.mod_pos_bound. lia. Qed.

Lemma ToInt32_cases (x : Z) :
  ToInt32 x = x mod 2 ^ 32 \/ ToInt32 x = x mod 2 ^ 32 - 2 ^ 32.
Proof.
  unfold ToInt32. cbv zeta.
  destruct (x mod 2 ^ 32 >=? 2 ^ 31); auto.
Qed.

Lemma ToInt32_mod (x : Z) : ToInt32 x mod 2 ^ 32 = x mod 2 ^ 32.
Proof.
  destruct (ToInt32_cases x) as [-> | ->].
  - apply Z.mod_mod. lia.
  - replace (x mod 2 ^ 32 - 2 ^ 32) with (x mod 2 ^ 32 + (-1) * 2 ^ 32) by ring.
    rewrite Z.mod_add by lia. apply Z.mod_mod. lia.
Qed.

Lemma ToInt32_small (x : Z) : 0 <= x < 2 ^ 31 -> ToInt32 x = x.
Proof.
  intros H. unfold ToInt32. cbv zeta.
  rewrite Z.mod_small by lia.
  destruct (x >=? 2 ^ 31) eqn:E; [lia | reflexivity].
Qed.

Lemma ToUint32_ToInt32 (x : Z) : ToUint32 (ToInt32 x) = ToUint32 x.
Proof. apply ToInt32_mod. Qed.

(** Adding after a signed conversion and then converting back to unsigned
    forgets the signed conversion. *)
Lemma ToUint32_ToInt32_add (x d : Z) :
  ToUint32 (ToInt32 x + d) = ToUint32 (x + d).
Proof.
  unfold ToUint32.
  rewrite Z.add_mod by lia. rewrite ToInt32_mod.
  rewrite <- Z.add_mod by lia. reflexivity.
Qed.

Lemma ushr_0 (x : Z) : ushr x 0 = ToUint32 x.
Proof. unfold ushr. change (shiftCount 0) with 0. apply Z.shiftr_0_r. Qed.

Lemma ushr_0_small (x : Z) : 0 <= x < 2 ^ 32 -> ushr x 0 = x.
Proof. intros H. rewrite ushr_0. now apply ToUint32_small. Qed.

Lemma shl_8 (x : Z) : shl x 8 = ToInt32 (ToInt32 x * 256).
Proof.
  unfold shl. change (shiftCount 8) with 8.
  rewrite Z.shiftl_mul_pow2 by lia. reflexivity.
Qed.

(** The low byte: [x & 255]. *)
Lemma band_255 (x : Z) : band x 255 = x mod 256.
Proof.
  unfold band. change (ToInt32 255) with (Z.ones 8).
  rewrite Z.land_ones by lia.
  destruct (ToInt32_cases x) as [-> | ->];
    change (2 ^ 32) with 4294967296; change (2 ^ 8) with 256;
    Z.to_euclidean_division_equations; lia.
Qed.

Lemma ushr_const (x k : Z) :
  0 <= k < 32 -> 0 <= x < 2 ^ 32 -> ushr x k = x / 2 ^ k.
Proof.
  intros Hk Hx. unfold ushr, shiftCount.
  rewrite (ToUint32_small k) by lia.
  change 31 with (Z.ones 5). rewrite Z.land_ones by lia.
  rewrite Z.mod_small by (change (2 ^ 5) with 32; lia).
  rewrite ToUint32_small by assumption.
  apply Z.shiftr_div_pow2. lia.
Qed.

End Conversions.

(** ** Facts about [split], [join] and decimal rendering *)

Section Texts.

Lemma split_nonempty (sep : ascii) (s : string) : split sep s <> [].
Proof.
  destruct s as [| c rest]; simpl; [discriminate |].
  destruct (Ascii.eqb c sep); [discriminate |].
  destruct (split sep rest); discriminate.
Qed.

Lemma join_cons2 (x y : string) (l : list string) :
  join "." (x :: y :: l) = x ++ String "." (join "." (y :: l)).
Proof. reflexivity. Qed.

(** Joining the segments of a text with the separator gives the text back. *)
Lemma join_split (s : string) : join "." (split "." s) = s.
Proof.
  induction s as [| c rest IH]; [reflexivity |].
  simpl split. destruct (Ascii.eqb c ".") eqn:E.
  - apply Ascii.eqb_eq in E. subst c.
    pose proof (split_nonempty "." rest) as Hne.
    destruct (split "." rest) as [| seg segs]; [congruence |].
    rewrite join_cons2, IH. reflexivity.
  - pose proof (split_nonempty "." rest) as Hne.
    destruct (split "." rest) as [| seg segs]; [congruence |].
    rewrite <- IH. destruct segs; reflexivity.
Qed.

Lemma split_noDot (s : string) : noDot s = true -> split "." s = [s].
Proof.
  induction s as [| c rest IH]; [reflexivity |].
  simpl. intros H. apply andb_prop in H. destruct H as [Hc Hr].
  apply negb_true_iff in Hc. rewrite Hc, (IH Hr). reflexivity.
Qed.

Lemma split_app_dot (s r : string) :
  noDot s = true -> split "." (s ++ String "." r) = s :: split "." r.
Proof.
  induction s as [| c rest IH]; intros H.
  - reflexivity.
  - simpl in H. apply andb_prop in H. destruct H as [Hc Hr].
    apply negb_true_iff in Hc.
    change (String c rest ++ String "." r)
      with (String c (rest ++ String "." r)).
    cbn [split]. rewrite Hc, (IH Hr). reflexivity.
Qed.

Lemma octets_ok : forallb octetOk (map Z.of_nat (seq 0 256)) = true.
Proof. vm_compute. reflexivity. Qed.

Lemma octetOk_byte (n : Z) : isByte n -> octetOk n = true.
Proof.
  intros [Hlo Hhi].
  pose proof octets_ok as H. rewrite forallb_forall in H.
  apply H. apply in_map_iff. exists (Z.to_nat n). split; [lia |].
  apply in_seq. lia.
Qed.

Lemma noDot_byte (n : Z) : isByte n -> noDot (Z_toString n) = true.
Proof.
  intros H. apply octetOk_byte in H. unfold octetOk in H.
  now apply andb_prop in H.
Qed.

Lemma parseInt_byte (n : Z) : isByte n -> parseInt (Z_toString n) = Some n.
Proof.
  intros H. apply octetOk_byte in H. unfold octetOk in H.
  apply andb_prop in H. destruct H as [_ H].
  destruct (parseInt (Z_toString n)) as [m |]; [| discriminate].
  apply Z.eqb_eq in H. now subst.
Qed.

Lemma split_dotted (a b c d : Z) :
  isByte a -> isByte b -> isByte c -> isByte d ->
  split "." (dotted a b c d) = map Z_toString [a; b; c; d].
Proof.
  intros Ha Hb Hc Hd. unfold dotted. simpl map.
  rewrite !join_cons2.
  rewrite !split_app_dot by now apply noDot_byte.
  simpl join. rewrite split_noDot by now apply noDot_byte.
  reflexivity.
Qed.

End Texts.

(** ** Addresses as texts and as integers *)

Section Addresses.

Lemma shl_8_small (x : Z) : 0 <= x < 2 ^ 23 -> shl x 8 = x * 256.
Proof.
  intros H. rewrite shl_8.
  rewrite (ToInt32_small x) by lia. apply ToInt32_small. lia.
Qed.

(** [ipToInt] packs the four octets big-endian. *)
Lemma ipToInt_dotted (a b c d : Z) :
  isByte a -> isByte b -> isByte c -> isByte d ->
  ipToInt (dotted a b c d) = a * 16777216 + b * 65536 + c * 256 + d.
Proof.
  unfold isByte. intros Ha Hb Hc Hd. unfold ipToInt.
  rewrite split_dotted by assumption.
  cbn [map fold_left].
  rewrite !parseInt_byte by assumption.
  cbn [addN ToInt32N ToUint32N].
  change (ToInt32 0) with 0.
  rewrite (shl_8_small 0) by lia.
  rewrite (ToInt32_small (0 * 256 + a)) by lia.
  rewrite (shl_8_small (0 * 256 + a)) by lia.
  rewrite (ToInt32_small ((0 * 256 + a) * 256 + b)) by lia.
  rewrite (shl_8_small ((0 * 256 + a) * 256 + b)) by lia.
  rewrite shl_8.
  rewrite (ToInt32_small (((0 * 256 + a) * 256 + b) * 256 + c)) by lia.
  rewrite (ToInt32_small (((0 * 256 + a) * 256 + b) * 256 + c)) by lia.
  rewrite ToUint32_ToInt32_add.
  rewrite ToUint32_small by lia. ring.
Qed.

(** [intToIP] renders the four bytes of its argument. *)
Lemma intToIP_dotted (n : Z) :
  isUint32 n ->
  intToIP n = dotted ((n / 16777216) mod 256) ((n / 65536) mod 256)
                     ((n / 256) mod 256) (n mod 256).
Proof.
  unfold isUint32. intros H. unfold intToIP, dotted.
  rewrite !band_255.
  rewrite !ushr_const by lia.
  reflexivity.
Qed.

Lemma octets_of_uint32 (n : Z) :
  isUint32 n ->
  isByte ((n / 16777216) mod 256) /\ isByte ((n / 65536) mod 256) /\
  isByte ((n / 256) mod 256) /\ isByte (n mod 256) /\
  ((n / 16777216) mod 256) * 16777216 + ((n / 65536) mod 256) * 65536
    + ((n / 256) mod 256) * 256 + n mod 256 = n.
Proof.
  unfold isUint32, isByte. change (2 ^ 32) with 4294967296. intros H.
  Z.to_euclidean_division_equations. lia.
Qed.

Lemma uint32_of_octets (a b c d : Z) :
  isByte a -> isByte b -> isByte c -> isByte d ->
  let n := a * 16777216 + b * 65536 + c * 256 + d in
  isUint32 n /\
  (n / 16777216) mod 256 = a /\ (n / 65536) mod 256 = b /\
  (n / 256) mod 256 = c /\ n mod 256 = d.
Proof.
  unfold isUint32, isByte. change (2 ^ 32) with 4294967296.
  intros Ha Hb Hc Hd. cbv zeta.
  Z.to_euclidean_division_equations. lia.
Qed.

Lemma ipToInt_intToIP (n : Z) : isUint32 n -> ipToInt (intToIP n) = n.
Proof.
  intros H. rewrite intToIP_dotted by assumption.
  destruct (octets_of_uint32 n H) as (Ha & Hb & Hc & Hd & Hn).
  rewrite ipToInt_dotted by assumption. exact Hn.
Qed.

Lemma intToIP_of_octets (a b c d : Z) :
  isByte a -> isByte b -> isByte c -> isByte d ->
  intToIP (a * 16777216 + b * 65536 + c * 256 + d) = dotted a b c d.
Proof.
  intros Ha Hb Hc Hd.
  destruct (uint32_of_octets a b c d Ha Hb Hc Hd) as (Hn & Ea & Eb & Ec & Ed).
  cbv zeta in *.
  rewrite intToIP_dotted by exact Hn.
  rewrite Ea, Eb, Ec, Ed. reflexivity.
Qed.

End Addresses.

(** ** Valid address texts *)

Section Validity.

(** The test that [isValidIP] applies to each segment. *)
Lemma octet_test (octet : string) :
  (let num := parseInt octet in
   geN num 0 && leN num 255 && String.eqb octet (toString num)) = true <->
  exists n, parseInt octet = Some n /\ isByte n /\ Z_toString n = octet.
Proof.
  cbv zeta. unfold isByte. split.
  - intros H. destruct (parseInt octet) as [n |]; [| discriminate].
    cbn [geN leN toString] in H.
    apply andb_prop in H. destruct H as [H He].
    apply andb_prop in H. destruct H as [Hlo Hhi].
    apply String.eqb_eq in He.
    exists n. repeat split; try lia. now symmetry.
  - intros (n & -> & [Hlo Hhi] & He). cbn [geN leN toString].
    rewrite He, String.eqb_refl.
    replace (0 <=? n) with true by (symmetry; now apply Z.leb_le).
    replace (n <=? 255) with true by (symmetry; now apply Z.leb_le).
    reflexivity.
Qed.

Lemma isValidIP_segments (ip : string) :
  isValidIP ip = true <->
  exists s0 s1 s2 s3,
    split "." ip = [s0; s1; s2; s3] /\
    forall s, In s [s0; s1; s2; s3] ->
      exists n, parseInt s = Some n /\ isByte n /\ Z_toString n = s.
Proof.
  unfold isValidIP. cbv zeta. split.
  - intros H.
    destruct (split "." ip) as [| s0 [| s1 [| s2 [| s3 [| s4 l]]]]];
      try discriminate H.
    cbn [List.length Nat.eqb negb] in H.
    rewrite forallb_forall in H.
    exists s0, s1, s2, s3. split; [reflexivity |].
    intros s Hs. apply octet_test. now apply H.
  - intros (s0 & s1 & s2 & s3 & -> & H).
    cbn [List.length Nat.eqb negb].
    apply forallb_forall. intros s Hs.
    apply (proj2 (octet_test s)). now apply H.
Qed.

Lemma isValidIP_dotted (a b c d : Z) :
  isByte a -> isByte b -> isByte c -> isByte d ->
  isValidIP (dotted a b c d) = true.
Proof.
  intros Ha Hb Hc Hd. apply isValidIP_segments.
  exists (Z_toString a), (Z_toString b), (Z_toString c), (Z_toString d).
  split; [now apply split_dotted |].
  intros s [<- | [<- | [<- | [<- | []]]]];
    eexists; (split; [now apply parseInt_byte | split; [eassumption | reflexivity]]).
Qed.

Lemma isValidIP_inv (ip : string) :
  isValidIP ip = true ->
  exists a b c d,
    isByte a /\ isByte b /\ isByte c /\ isByte d /\ ip = dotted a b c d.
Proof.
  intros H. apply isValidIP_segments in H.
  destruct H as (s0 & s1 & s2 & s3 & Hs & H).
  destruct (H s0) as (a & _ & Ha & Ea); [simpl; auto |].
  destruct (H s1) as (b & _ & Hb & Eb); [simpl; auto |].
  destruct (H s2) as (c & _ & Hc & Ec); [simpl; auto |].
  destruct (H s3) as (d & _ & Hd & Ed); [simpl; auto |].
  exists a, b, c, d. repeat (split; [assumption |]).
  rewrite <- (join_split ip), Hs. unfold dotted. cbn [map].
  now rewrite Ea, Eb, Ec, Ed.
Qed.

(** The valid address texts are exactly the renderings of the 32-bit
    unsigned integers. *)
Lemma isValidIP_iff_intToIP (ip : string) :
  isValidIP ip = true <-> exists n, isUint32 n /\ ip = intToIP n.
Proof.
  split.
  - intros H. destruct (isValidIP_inv ip H) as (a & b & c & d & Ha & Hb & Hc & Hd & ->).
    exists (a * 16777216 + b * 65536 + c * 256 + d). split.
    + now apply (uint32_of_octets a b c d).
    + symmetry. now apply intToIP_of_octets.
  - intros (n & Hn & ->). rewrite intToIP_dotted by assumption.
    destruct (octets_of_uint32 n Hn) as (Ha & Hb & Hc & Hd & _).
    now apply isValidIP_dotted.
Qed.

Lemma ipToInt_range (ip : string) : isValidIP ip = true -> isUint32 (ipToInt ip).
Proof.
  intros H. apply isValidIP_iff_intToIP in H. destruct H as (n & Hn & ->).
  now rewrite ipToInt_intToIP.
Qed.

Lemma intToIP_ipToInt (ip : string) :
  isValidIP ip = true -> intToIP (ipToInt ip) = ip.
Proof.
  intros H. apply isValidIP_iff_intToIP in H. destruct H as (n & Hn & ->).
  now rewrite ipToInt_intToIP.
Qed.

Lemma isValidIP_intToIP (n : Z) : isUint32 n -> isValidIP (intToIP n) = true.
Proof. intros H. apply isValidIP_iff_intToIP. now exists n. Qed.

End Validity.

(** ** Masks *)

Section Masks.

(** A boolean property checked on every integer of a range holds on the
    range. *)
Lemma range_check (f : Z -> bool) (lo : Z) (len : nat) :
  forallb f (map (fun k => lo + Z.of_nat k) (seq 0 len)) = true ->
  forall p, lo <= p < lo + Z.of_nat len -> f p = true.
Proof.
  intros H p Hp. rewrite forallb_forall in H. apply H.
  apply in_map_iff. exists (Z.to_nat (p - lo)). split; [lia |].
  apply in_seq. lia.
Qed.

Lemma maskInt_pos (p : Z) : 1 <= p <= 32 -> maskInt p = 2 ^ 32 - 2 ^ (32 - p).
Proof.
  intros H. apply Z.eqb_eq.
  apply (range_check (fun p => maskInt p =? 2 ^ 32 - 2 ^ (32 - p)) 1 32);
    [vm_compute; reflexivity | lia].
Qed.

(** The shift count 32 is taken modulo 32: nothing is shifted out. *)
Lemma maskInt_0 : maskInt 0 = 4294967295.
Proof. vm_compute. reflexivity. Qed.

Lemma hostMask_below_32 (p : Z) : 0 <= p <= 31 -> hostMask p = 2 ^ (32 - p) - 1.
Proof.
  intros H. apply Z.eqb_eq.
  apply (range_check (fun p => hostMask p =? 2 ^ (32 - p) - 1) 0 32);
    [vm_compute; reflexivity | lia].
Qed.

Lemma hostMask_32 : hostMask 32 = 4294967295.
Proof. vm_compute. reflexivity. Qed.

Lemma ToUint32_land_ones (x : Z) : ToUint32 x = Z.land x (Z.ones 32).
Proof. unfold ToUint32. symmetry. apply Z.land_ones. lia. Qed.

Lemma ToUint32_band (a b : Z) :
  ToUint32 (band a b) = Z.land (ToUint32 a) (ToUint32 b).
Proof.
  unfold band.
  rewrite <- (ToUint32_ToInt32 a), <- (ToUint32_ToInt32 b).
  rewrite !ToUint32_land_ones.
  apply Z.bits_inj'. intros i Hi. rewrite !Z.land_spec.
  destruct (Z.testbit (ToInt32 a) i), (Z.testbit (ToInt32 b) i),
    (Z.testbit (Z.ones 32) i); reflexivity.
Qed.

Lemma ToUint32_bor (a b : Z) :
  ToUint32 (bor a b) = Z.lor (ToUint32 a) (ToUint32 b).
Proof.
  unfold bor.
  rewrite <- (ToUint32_ToInt32 a), <- (ToUint32_ToInt32 b).
  rewrite !ToUint32_land_ones.
  apply Z.bits_inj'. intros i Hi.
  rewrite !Z.land_spec, !Z.lor_spec, !Z.land_spec.
  destruct (Z.testbit (ToInt32 a) i), (Z.testbit (ToInt32 b) i),
    (Z.testbit (Z.ones 32) i); reflexivity.
Qed.

Lemma testbit_uint32_high (n i : Z) :
  isUint32 n -> 32 <= i -> Z.testbit n i = false.
Proof.
  unfold isUint32. intros Hn Hi.
  rewrite <- (Z.mod_small n (2 ^ 32)) by assumption.
  apply Z.mod_pow2_bits_high. lia.
Qed.

(** Masking with the top [32 - k] bits clears the low [k] bits. *)
Lemma land_high_mask (n k : Z) :
  0 <= k <= 32 -> isUint32 n ->
  Z.land n (2 ^ 32 - 2 ^ k) = 2 ^ k * (n / 2 ^ k).
Proof.
  intros Hk Hn.
  replace (2 ^ 32 - 2 ^ k) with (Z.shiftl (Z.ones (32 - k)) k).
  2:{ rewrite Z.shiftl_mul_pow2, Z.ones_equiv by lia.
      unfold Z.pred. rewrite Z.mul_add_distr_r, <- Z.pow_add_r by lia.
      replace (32 - k + k) with 32 by ring. ring. }
  rewrite <- Z.shiftr_div_pow2, Z.mul_comm, <- Z.shiftl_mul_pow2 by lia.
  apply Z.bits_inj'. intros i Hi.
  rewrite Z.land_spec, !Z.shiftl_spec by assumption.
  destruct (Z.ltb_spec i k) as [Hlt | Hge].
  - rewrite !(Z.testbit_neg_r _ (i - k)) by lia. apply andb_false_r.
  - rewrite Z.shiftr_spec by lia. replace (i - k + k) with i by ring.
    destruct (Z.ltb_spec i 32) as [Hlt | Hge'].
    + rewrite Z.ones_spec_low by lia. apply andb_true_r.
    + rewrite (testbit_uint32_high n i Hn Hge'). reflexivity.
Qed.

(** Setting the low [k] bits of a multiple of [2^k] adds [2^k - 1]. *)
Lemma lor_low_ones (q k : Z) :
  0 <= k -> Z.lor (2 ^ k * q) (2 ^ k - 1) = 2 ^ k * q + 2 ^ k - 1.
Proof.
  intros Hk. change (2 ^ k - 1) with (Z.pred (2 ^ k)).
  rewrite <- Z.ones_equiv.
  assert (H0 : Z.land (2 ^ k * q) (Z.ones k) = 0).
  { rewrite Z.land_ones by assumption.
    rewrite Z.mul_comm. apply Z.mod_mul. lia. }
  rewrite <- Z.lxor_lor by exact H0.
  rewrite <- Z.add_nocarry_lxor by exact H0.
  rewrite Z.ones_equiv. unfold Z.pred. ring.
Qed.

End Masks.

(** ** Network and broadcast addresses *)

Section Blocks.

(** The block of [2^k] addresses that contains [n]. *)
Lemma block_bounds (n k : Z) :
  0 <= k <= 32 -> isUint32 n ->
  0 <= 2 ^ k * (n / 2 ^ k) <= n /\ 2 ^ k * (n / 2 ^ k) + 2 ^ k <= 2 ^ 32.
Proof.
  unfold isUint32. intros Hk Hn.
  assert (Hpos : 0 < 2 ^ k) by (apply Z.pow_pos_nonneg; lia).
  assert (Hq : 0 <= n / 2 ^ k) by (apply Z.div_pos; lia).
  assert (Hle : 2 ^ k * (n / 2 ^ k) <= n) by (apply Z.mul_div_le; lia).
  assert (Hsplit : 2 ^ 32 = 2 ^ k * 2 ^ (32 - k)).
  { rewrite <- Z.pow_add_r by lia. f_equal. ring. }
  assert (Hlt : n / 2 ^ k < 2 ^ (32 - k)).
  { apply Z.div_lt_upper_bound; [lia |]. rewrite <- Hsplit. lia. }
  split; [nia |]. rewrite Hsplit. nia.
Qed.

Lemma getNetworkAddress_eq (ip : string) (p : Z) :
  getNetworkAddress ip p = intToIP (ToUint32 (band (ipToInt ip) (maskInt p))).
Proof. unfold getNetworkAddress. cbv zeta. now rewrite ushr_0. Qed.

Lemma getBroadcastAddress_eq (ip : string) (p : Z) :
  getBroadcastAddress ip p =
  intToIP (ToUint32 (bor (ipToInt (getNetworkAddress ip p)) (hostMask p))).
Proof. unfold getBroadcastAddress. cbv zeta. now rewrite ushr_0. Qed.

(** The network address clears the low [32 - p] bits, for [p >= 1]. *)
Lemma getNetworkAddress_int (ip : string) (p : Z) :
  isValidIP ip = true -> 1 <= p <= 32 ->
  ipToInt (getNetworkAddress ip p)
  = 2 ^ (32 - p) * (ipToInt ip / 2 ^ (32 - p)).
Proof.
  intros Hip Hp. apply ipToInt_range in Hip.
  rewrite getNetworkAddress_eq, ipToInt_intToIP by apply ToUint32_range.
  rewrite ToUint32_band, maskInt_pos by assumption.
  rewrite (ToUint32_small (ipToInt ip)) by assumption.
  rewrite ToUint32_small.
  - apply land_high_mask; [lia | assumption].
  - assert (0 < 2 ^ (32 - p) <= 2 ^ 32); [| lia].
    split; [apply Z.pow_pos_nonneg; lia | apply Z.pow_le_mono_r; lia].
Qed.

(** With prefix 0 the mask is all ones and the address is unchanged. *)
Lemma getNetworkAddress_int_0 (ip : string) :
  isValidIP ip = true -> ipToInt (getNetworkAddress ip 0) = ipToInt ip.
Proof.
  intros Hip. apply ipToInt_range in Hip.
  rewrite getNetworkAddress_eq, ipToInt_intToIP by apply ToUint32_range.
  rewrite ToUint32_band, maskInt_0.
  change (ToUint32 4294967295) with (Z.ones 32).
  rewrite <- ToUint32_land_ones.
  rewrite (ToUint32_small (ipToInt ip)) by assumption.
  now apply ToUint32_small.
Qed.

Lemma getNetworkAddress_range (ip : string) (p : Z) :
  isUint32 (ipToInt (getNetworkAddress ip p)).
Proof.
  rewrite getNetworkAddress_eq, ipToInt_intToIP by apply ToUint32_range.
  apply ToUint32_range.
Qed.

(** The broadcast address as the code computes it, for every prefix. *)
Lemma getBroadcastAddress_int (ip : string) (p : Z) :
  ipToInt (getBroadcastAddress ip p)
  = Z.lor (ipToInt (getNetworkAddress ip p)) (ToUint32 (hostMask p)).
Proof.
  rewrite getBroadcastAddress_eq, ipToInt_intToIP by apply ToUint32_range.
  rewrite ToUint32_bor.
  rewrite (ToUint32_small (ipToInt _)) by apply getNetworkAddress_range.
  reflexivity.
Qed.

Lemma hostMask_small (p : Z) : 0 <= p <= 31 -> ToUint32 (hostMask p) = 2 ^ (32 - p) - 1.
Proof.
  intros Hp. rewrite hostMask_below_32 by assumption.
  apply ToUint32_small.
  assert (0 < 2 ^ (32 - p) <= 2 ^ 32); [| lia].
  split; [apply Z.pow_pos_nonneg; lia | apply Z.pow_le_mono_r; lia].
Qed.

(** For prefixes 0 to 31 the broadcast address is the network address with
    all host bits set. *)
Lemma getBroadcastAddress_below_32 (ip : string) (p : Z) :
  0 <= p <= 31 ->
  ipToInt (getBroadcastAddress ip p)
  = Z.lor (ipToInt (getNetworkAddress ip p)) (2 ^ (32 - p) - 1).
Proof.
  intros Hp. now rewrite getBroadcastAddress_int, hostMask_small.
Qed.

(** For prefixes 1 to 31 it is the last address of the block. *)
Lemma getBroadcastAddress_last (ip : string) (p : Z) :
  isValidIP ip = true -> 1 <= p <= 31 ->
  ipToInt (getBroadcastAddress ip p)
  = ipToInt (getNetworkAddress ip p) + 2 ^ (32 - p) - 1.
Proof.
  intros Hip Hp. rewrite getBroadcastAddress_below_32 by lia.
  rewrite getNetworkAddress_int by (assumption || lia).
  apply lor_low_ones. lia.
Qed.

End Blocks.

(** ** The enumeration loop *)

Section Enumeration.

Variables baseNetworkInt subnetSize numSubnets newPrefix : Z.

(** With fuel for the remaining iterations, the loop pushes the records of
    the indices [i], [i + 1], ..., [numSubnets - 1] in this order. *)
Lemma subnetsLoop_eq (fuel : nat) :
  forall (i : Z) (acc : list Subnet),
    0 <= i <= numSubnets -> numSubnets - i <= Z.of_nat fuel ->
    subnetsLoop fuel baseNetworkInt subnetSize numSubnets newPrefix i acc
    = (acc ++ map (fun k => subnetAt baseNetworkInt subnetSize newPrefix
                                     (i + Z.of_nat k))
                  (seq 0 (Z.to_nat (numSubnets - i))))%list.
Proof.
  induction fuel as [| fuel IH]; intros i acc Hi Hfuel.
  - replace (numSubnets - i) with 0 by lia. simpl. now rewrite app_nil_r.
  - cbn [subnetsLoop]. destruct (Z.ltb_spec i numSubnets) as [Hlt | Hge].
    + rewrite IH by lia.
      replace (Z.to_nat (numSubnets - i))
        with (S (Z.to_nat (numSubnets - (i + 1)))) by lia.
      rewrite <- app_assoc. f_equal.
      cbn [seq map app]. rewrite Z.add_0_r. f_equal.
      rewrite <- seq_shift, map_map. apply map_ext.
      intros k. f_equal. lia.
    + replace (numSubnets - i) with 0 by lia. simpl. now rewrite app_nil_r.
Qed.

(** More fuel than iterations changes nothing: the loop ends by its test. *)
Lemma subnetsLoop_fuel (fuel : nat) :
  0 <= numSubnets -> (Z.to_nat numSubnets <= fuel)%nat ->
  subnetsLoop fuel baseNetworkInt subnetSize numSubnets newPrefix 0 []
  = subnetsLoop (Z.to_nat numSubnets) baseNetworkInt subnetSize numSubnets
      newPrefix 0 [].
Proof.
  intros HN Hfuel. rewrite !subnetsLoop_eq by lia. reflexivity.
Qed.

End Enumeration.

Section Calculate.

Lemma isValidPrefix_iff (p : Z) : isValidPrefix p = true <-> 0 <= p <= 32.
Proof.
  unfold isValidPrefix, Number_isInteger. rewrite andb_true_r.
  rewrite andb_true_iff, !Z.leb_le. reflexivity.
Qed.

Lemma calculateSubnets_single (ip : string) (p : Z) (t : option Z) :
  isValidIP ip = true -> 0 <= p <= 32 -> t = None \/ t = Some p ->
  calculateSubnets ip p t = Return (singleNetwork ip p).
Proof.
  intros Hip Hp Ht. unfold calculateSubnets.
  rewrite Hip, (proj2 (isValidPrefix_iff p) Hp). cbn [negb].
  destruct Ht as [-> | ->]; [reflexivity |].
  now rewrite Z.eqb_refl.
Qed.

Lemma calculateSubnets_split (ip : string) (base target : Z) :
  isValidIP ip = true -> 0 <= base -> base < target <= 32 ->
  calculateSubnets ip base (Some target) = Return (enumerated ip base target).
Proof.
  intros Hip Hb Ht. unfold calculateSubnets.
  rewrite Hip, (proj2 (isValidPrefix_iff base)) by lia. cbn [negb].
  replace (target =? base) with false by (symmetry; apply Z.eqb_neq; lia).
  rewrite (proj2 (isValidPrefix_iff target)) by lia. cbn [negb].
  replace (target <=? base) with false by (symmetry; apply Z.leb_gt; lia).
  cbv zeta. unfold Math_pow.
  rewrite subnetsLoop_eq.
  - cbn [app]. rewrite Z.sub_0_r. reflexivity.
  - split; [lia | apply Z.pow_nonneg; lia].
  - rewrite Z2Nat.id by (apply Z.pow_nonneg; lia). lia.
Qed.

Lemma enumerated_length (ip : string) (base target : Z) :
  Z.of_nat (List.length (enumerated ip base target)) = 2 ^ (target - base).
Proof.
  unfold enumerated. rewrite length_map, length_seq.
  apply Z2Nat.id. apply Z.pow_nonneg. lia.
Qed.

Lemma enumerated_nth (ip : string) (base target k : Z) :
  1 <= k <= 2 ^ (target - base) ->
  nth_error (enumerated ip base target) (Z.to_nat (k - 1))
  = Some (subnetAt (ipToInt (getNetworkAddress ip base))
                   (2 ^ (32 - target)) target (k - 1)).
Proof.
  intros Hk. unfold enumerated.
  rewrite nth_error_map, nth_error_seq.
  destruct (Nat.ltb_spec (Z.to_nat (k - 1)) (Z.to_nat (2 ^ (target - base))))
    as [Hlt | Hge]; [| lia].
  cbn [option_map]. rewrite Nat.add_0_l, Z2Nat.id by lia. reflexivity.
Qed.

Lemma enumerated_In (ip : string) (base target : Z) (s : Subnet) :
  In s (enumerated ip base target) ->
  exists i, 0 <= i < 2 ^ (target - base) /\
    s = subnetAt (ipToInt (getNetworkAddress ip base))
                 (2 ^ (32 - target)) target i.
Proof.
  unfold enumerated. intros H. apply in_map_iff in H.
  destruct H as (k & <- & Hk). apply in_seq in Hk.
  exists (Z.of_nat k). split; [lia | reflexivity].
Qed.

End Calculate.

(** ** Conversion round trips *)

(** C4. Conversion round-trips: for every valid dotted-decimal address text
    [a], [intToIP (ipToInt a)] is [a]; and for every 32-bit unsigned integer
    [n], [ipToInt (intToIP n)] is [n]. *)
Theorem conversion_round_trips :
  (forall a : string, isValidIP a = true -> intToIP (ipToInt a) = a) /\
  (forall n : Z, 0 <= n < 2 ^ 32 -> ipToInt (intToIP n) = n).
Proof.
  split.
  - exact intToIP_ipToInt.
  - exact ipToInt_intToIP.
Qed.

Lemma conversion_round_trips_witness :
  intToIP (ipToInt "192.168.1.0") = "192.168.1.0" /\
  ipToInt (intToIP 3232235776) = 3232235776.
Proof.
  split.
  - apply (proj1 conversion_round_trips "192.168.1.0"). reflexivity.
  - apply (proj2 conversion_round_trips 3232235776). lia.
Defined.

(** ** Validation *)

(** C7. [isValidIP text] is true exactly when the text splits into four
    dot-separated segments, each of which parses as a base-10 integer in
    [0, 255] whose canonical decimal rendering is the segment itself; and
    "256.1.1.1" is invalid, "192.168.1.0" is valid, "192.168.01.0" is
    invalid. *)
Theorem isValidIP_spec :
  (forall text : string,
     isValidIP text = true <->
     exists s0 s1 s2 s3,
       split "." text = [s0; s1; s2; s3] /\
       forall s, In s [s0; s1; s2; s3] ->
         exists n, parseInt s = Some n /\ 0 <= n <= 255 /\ Z_toString n = s) /\
  isValidIP "256.1.1.1" = false /\
  isValidIP "192.168.1.0" = true /\
  isValidIP "192.168.01.0" = false.
Proof.
  split; [exact isValidIP_segments |].
  repeat split; reflexivity.
Qed.

Lemma isValidIP_spec_witness :
  exists s0 s1 s2 s3,
    split "." "10.0.0.1" = [s0; s1; s2; s3] /\
    forall s, In s [s0; s1; s2; s3] ->
      exists n, parseInt s = Some n /\ 0 <= n <= 255 /\ Z_toString n = s.
Proof.
  apply (proj1 (proj1 isValidIP_spec "10.0.0.1")). reflexivity.
Defined.

(** ** First and last usable addresses *)

Lemma getFirstUsable_int (n : Z) :
  isUint32 n -> ipToInt (getFirstUsable (intToIP n)) = (n + 1) mod 2 ^ 32.
Proof.
  intros Hn. unfold getFirstUsable. cbv zeta.
  rewrite (ipToInt_intToIP n) by assumption.
  rewrite ushr_0. apply ipToInt_intToIP. apply ToUint32_range.
Qed.

Lemma getLastUsable_int (n : Z) :
  isUint32 n -> ipToInt (getLastUsable (intToIP n)) = (n - 1) mod 2 ^ 32.
Proof.
  intros Hn. unfold getLastUsable. cbv zeta.
  rewrite (ipToInt_intToIP n) by assumption.
  rewrite ushr_0. apply ipToInt_intToIP. apply ToUint32_range.
Qed.

(** C10. [getFirstUsable] and [getLastUsable] compute modulo 2^32 and wrap
    around at the ends of the address space: the address after
    "255.255.255.255" is "0.0.0.0" and the address before "0.0.0.0" is
    "255.255.255.255"; on every valid address the result is again a valid
    address, the successor or predecessor modulo 2^32. *)
Theorem usable_addresses_wrap :
  getFirstUsable "255.255.255.255" = "0.0.0.0" /\
  getLastUsable "0.0.0.0" = "255.255.255.255" /\
  (forall a : string, isValidIP a = true ->
     isValidIP (getFirstUsable a) = true /\
     isValidIP (getLastUsable a) = true /\
     ipToInt (getFirstUsable a) = (ipToInt a + 1) mod 2 ^ 32 /\
     ipToInt (getLastUsable a) = (ipToInt a - 1) mod 2 ^ 32).
Proof.
  split; [reflexivity |]. split; [reflexivity |].
  intros a Ha. apply isValidIP_iff_intToIP in Ha. destruct Ha as (n & Hn & ->).
  repeat split.
  - unfold getFirstUsable. cbv zeta. rewrite ushr_0.
    apply isValidIP_intToIP, ToUint32_range.
  - unfold getLastUsable. cbv zeta. rewrite ushr_0.
    apply isValidIP_intToIP, ToUint32_range.
  - rewrite getFirstUsable_int, ipToInt_intToIP by assumption. reflexivity.
  - rewrite getLastUsable_int, ipToInt_intToIP by assumption. reflexivity.
Qed.

Lemma usable_addresses_wrap_witness :
  isValidIP (getFirstUsable "10.0.0.255") = true /\
  isValidIP (getLastUsable "10.0.0.255") = true /\
  ipToInt (getFirstUsable "10.0.0.255") = (ipToInt "10.0.0.255" + 1) mod 2 ^ 32 /\
  ipToInt (getLastUsable "10.0.0.255") = (ipToInt "10.0.0.255" - 1) mod 2 ^ 32.
Proof.
  apply (proj2 (proj2 usable_addresses_wrap) "10.0.0.255"). reflexivity.
Defined.

(** ** Masks from prefixes *)

Lemma high_mask_testbit (k i : Z) :
  0 <= k <= 32 -> 0 <= i < 32 -> Z.testbit (2 ^ 32 - 2 ^ k) i = (k <=? i).
Proof.
  intros Hk Hi.
  replace (2 ^ 32 - 2 ^ k) with (Z.shiftl (Z.ones (32 - k)) k).
  2:{ rewrite Z.shiftl_mul_pow2, Z.ones_equiv by lia.
      unfold Z.pred. rewrite Z.mul_add_distr_r, <- Z.pow_add_r by lia.
      replace (32 - k + k) with 32 by ring. ring. }
  rewrite Z.shiftl_spec by lia.
  destruct (Z.leb_spec k i) as [Hle | Hlt].
  - apply Z.ones_spec_low. lia.
  - apply Z.testbit_neg_r. lia.
Qed.

Lemma prefixToMask_int (p : Z) :
  1 <= p <= 32 -> ipToInt (prefixToMask p) = 2 ^ 32 - 2 ^ (32 - p).
Proof.
  intros Hp. unfold prefixToMask. cbv zeta. fold (maskInt p).
  rewrite maskInt_pos by assumption. apply ipToInt_intToIP.
  assert (0 < 2 ^ (32 - p) <= 2 ^ 32); [| unfold isUint32; lia].
  split; [apply Z.pow_pos_nonneg; lia | apply Z.pow_le_mono_r; lia].
Qed.

(** For the prefixes 1 to 32 the mask has [p] leading 1-bits followed by
    [32 - p] 0-bits: bit [i], counted from the least significant one, is set
    exactly when [32 - p <= i]. *)
Lemma prefixToMask_leading_ones (p i : Z) :
  1 <= p <= 32 -> 0 <= i < 32 ->
  Z.testbit (ipToInt (prefixToMask p)) i = (32 - p <=? i).
Proof.
  intros Hp Hi. rewrite prefixToMask_int by assumption.
  apply high_mask_testbit; lia.
Qed.

Lemma prefixToMask_examples :
  prefixToMask 24 = "255.255.255.0" /\ prefixToMask 32 = "255.255.255.255" /\
  prefixToMask 26 = "255.255.255.192".
Proof. repeat split; reflexivity. Qed.

(** C2, at prefix 0.  The shift count [32 - 0] of [0xFFFFFFFF << 32] is taken
    modulo 32, so nothing is shifted out: [prefixToMask 0] is
    "255.255.255.255", all 32 bits set, and not "0.0.0.0". *)
Theorem prefixToMask_0 :
  prefixToMask 0 = "255.255.255.255" /\
  prefixToMask 0 <> "0.0.0.0" /\
  Z.testbit (ipToInt (prefixToMask 0)) 31 = true.
Proof.
  split; [reflexivity |]. split; [discriminate | reflexivity].
Qed.

(** ** Broadcast address *)

(** At prefix 0 the network address of every valid address is the address
    itself. *)
Lemma getNetworkAddress_0 (ip : string) :
  isValidIP ip = true -> getNetworkAddress ip 0 = ip.
Proof.
  intros Hip.
  rewrite <- (intToIP_ipToInt ip Hip) at 2.
  rewrite <- (getNetworkAddress_int_0 ip Hip).
  rewrite getNetworkAddress_eq.
  now rewrite ipToInt_intToIP by apply ToUint32_range.
Qed.

Lemma lor_ones_32 (x : Z) : isUint32 x -> Z.lor x (Z.ones 32) = Z.ones 32.
Proof.
  intros Hx. apply Z.bits_inj'. intros i Hi. rewrite Z.lor_spec.
  destruct (Z.ltb_spec i 32) as [Hlt | Hge].
  - rewrite Z.ones_spec_low by lia. apply orb_true_r.
  - rewrite (testbit_uint32_high x i Hx Hge). reflexivity.
Qed.

(** At prefix 32 the broadcast address of every address is
    "255.255.255.255". *)
Lemma getBroadcastAddress_32_any (ip : string) :
  getBroadcastAddress ip 32 = "255.255.255.255".
Proof.
  rewrite getBroadcastAddress_eq, ToUint32_bor, hostMask_32.
  change (ToUint32 4294967295) with (Z.ones 32).
  rewrite lor_ones_32 by apply ToUint32_range. reflexivity.
Qed.

(** C3, at prefix 32.  The shift count of [0xFFFFFFFF >>> 32] is taken modulo
    32, so the host mask is all ones instead of zero: the broadcast address of
    192.168.1.5/32 is "255.255.255.255", not the network address
    "192.168.1.5" OR-ed with the host mask [2^0 - 1 = 0]. *)
Theorem getBroadcastAddress_32 :
  isValidIP "192.168.1.5" = true /\
  getNetworkAddress "192.168.1.5" 32 = "192.168.1.5" /\
  getBroadcastAddress "192.168.1.5" 32 = "255.255.255.255" /\
  ipToInt (getBroadcastAddress "192.168.1.5" 32)
  <> Z.lor (ipToInt (getNetworkAddress "192.168.1.5" 32)) (2 ^ (32 - 32) - 1).
Proof.
  split; [reflexivity |]. split; [reflexivity |]. split; [reflexivity |].
  vm_compute. discriminate.
Qed.

(** ** Network class *)

Lemma getNetworkClass_dotted (a b c d : Z) :
  isByte a -> isByte b -> isByte c -> isByte d ->
  getNetworkClass (dotted a b c d) =
  if (1 <=? a) && (a <=? 126) then "A"
  else if (128 <=? a) && (a <=? 191) then "B"
  else if (192 <=? a) && (a <=? 223) then "C"
  else if (224 <=? a) && (a <=? 239) then "D (Multicast)"
  else if (240 <=? a) && (a <=? 255) then "E (Reserved)"
  else "Unknown".
Proof.
  intros Ha Hb Hc Hd. unfold getNetworkClass. cbv zeta.
  rewrite split_dotted by assumption. cbn [map hd].
  rewrite parseInt_byte by assumption. reflexivity.
Qed.

(** C8, as the code has it.  For every valid address text the class is
    decided by the first octet alone: 1-126 gives "A", 128-191 gives "B",
    192-223 gives "C", 224-239 gives "D (Multicast)", 240-255 gives
    "E (Reserved)", and 0 and 127 give "Unknown". *)
Theorem getNetworkClass_by_first_octet (ip : string) :
  isValidIP ip = true ->
  exists a : Z,
    parseInt (hd EmptyString (split "." ip)) = Some a /\ 0 <= a <= 255 /\
    (1 <= a <= 126 -> getNetworkClass ip = "A") /\
    (128 <= a <= 191 -> getNetworkClass ip = "B") /\
    (192 <= a <= 223 -> getNetworkClass ip = "C") /\
    (224 <= a <= 239 -> getNetworkClass ip = "D (Multicast)") /\
    (240 <= a <= 255 -> getNetworkClass ip = "E (Reserved)") /\
    (a = 0 \/ a = 127 -> getNetworkClass ip = "Unknown").
Proof.
  intros Hip.
  destruct (isValidIP_inv ip Hip) as (a & b & c & d & Ha & Hb & Hc & Hd & ->).
  exists a. split.
  { rewrite split_dotted by assumption. cbn [map hd].
    now apply parseInt_byte. }
  split; [exact Ha |].
  rewrite getNetworkClass_dotted by assumption.
  repeat split; intros H;
    repeat match goal with
      | |- context [?x <=? ?y] => destruct (Z.leb_spec x y)
      end; cbn [andb]; try reflexivity; lia.
Qed.

Lemma getNetworkClass_by_first_octet_witness :
  exists a : Z,
    parseInt (hd EmptyString (split "." "224.0.0.1")) = Some a /\ 0 <= a <= 255 /\
    (1 <= a <= 126 -> getNetworkClass "224.0.0.1" = "A") /\
    (128 <= a <= 191 -> getNetworkClass "224.0.0.1" = "B") /\
    (192 <= a <= 223 -> getNetworkClass "224.0.0.1" = "C") /\
    (224 <= a <= 239 -> getNetworkClass "224.0.0.1" = "D (Multicast)") /\
    (240 <= a <= 255 -> getNetworkClass "224.0.0.1" = "E (Reserved)") /\
    (a = 0 \/ a = 127 -> getNetworkClass "224.0.0.1" = "Unknown").
Proof.
  apply (getNetworkClass_by_first_octet "224.0.0.1"). reflexivity.
Defined.

(** C8 as stated fails: on the valid address "224.0.0.1", whose first octet
    224 lies in 224-239, the class returned is not "D", and on "240.0.0.1"
    it is not "E". *)
Lemma getNetworkClass_labels_counterexample :
  isValidIP "224.0.0.1" = true /\
  parseInt (hd EmptyString (split "." "224.0.0.1")) = Some 224 /\
  getNetworkClass "224.0.0.1" <> "D" /\
  getNetworkClass "224.0.0.1" = "D (Multicast)" /\
  isValidIP "240.0.0.1" = true /\
  getNetworkClass "240.0.0.1" <> "E" /\
  getNetworkClass "240.0.0.1" = "E (Reserved)".
Proof.
  repeat split; try reflexivity; vm_compute; discriminate.
Qed.

(** ** The single-network case *)

(** For every valid address text and valid prefix, no target prefix and a
    target prefix equal to the base prefix give the same result: the one
    record that the single-network branch builds from the engine's own
    functions. *)
Theorem calculateSubnets_no_split (ip : string) (p : Z) :
  isValidIP ip = true -> isValidPrefix p = true ->
  calculateSubnets ip p None = calculateSubnets ip p (Some p) /\
  calculateSubnets ip p None =
  Return [ {| subnetNumber := 1;
              networkAddress := getNetworkAddress ip p;
              broadcastAddress := getBroadcastAddress ip p;
              firstUsable := getFirstUsable (getNetworkAddress ip p);
              lastUsable := getLastUsable (getBroadcastAddress ip p);
              usableHosts := getUsableHosts p;
              subnetMask := prefixToMask p;
              prefix := p;
              totalAddresses := getTotalAddresses p |} ].
Proof.
  intros Hip Hp. apply isValidPrefix_iff in Hp.
  rewrite !calculateSubnets_single by auto.
  split; reflexivity.
Qed.

Lemma calculateSubnets_no_split_witness :
  calculateSubnets "192.168.1.0" 24 None = calculateSubnets "192.168.1.0" 24 (Some 24) /\
  calculateSubnets "192.168.1.0" 24 None =
  Return [ {| subnetNumber := 1;
              networkAddress := getNetworkAddress "192.168.1.0" 24;
              broadcastAddress := getBroadcastAddress "192.168.1.0" 24;
              firstUsable := getFirstUsable (getNetworkAddress "192.168.1.0" 24);
              lastUsable := getLastUsable (getBroadcastAddress "192.168.1.0" 24);
              usableHosts := getUsableHosts 24;
              subnetMask := prefixToMask 24;
              prefix := 24;
              totalAddresses := getTotalAddresses 24 |} ].
Proof.
  apply (calculateSubnets_no_split "192.168.1.0" 24); reflexivity.
Defined.

(** ** Splitting a network *)

Section Split.

Lemma pow2_pos (k : Z) : 0 <= k -> 0 < 2 ^ k.
Proof. intros H. apply Z.pow_pos_nonneg; lia. Qed.

Lemma pow2_ge_2 (k : Z) : 1 <= k -> 2 <= 2 ^ k.
Proof.
  intros H. change 2 with (2 ^ 1) at 1. apply Z.pow_le_mono_r; lia.
Qed.

Lemma subnetAt_network_int (B S q i : Z) :
  ipToInt (networkAddress (subnetAt B S q i)) = ToUint32 (B + i * S).
Proof.
  cbn [subnetAt networkAddress]. rewrite ushr_0.
  apply ipToInt_intToIP, ToUint32_range.
Qed.

Lemma subnetAt_broadcast_int (B S q i : Z) :
  ipToInt (broadcastAddress (subnetAt B S q i))
  = ToUint32 (ToUint32 (B + i * S) + S - 1).
Proof.
  cbn [subnetAt broadcastAddress]. rewrite !ushr_0.
  apply ipToInt_intToIP, ToUint32_range.
Qed.

(** For a base prefix of at least 1 the children stay inside the base block,
    so no addition wraps. *)
Lemma split_bounds (ip : string) (base target i : Z) :
  isValidIP ip = true -> 1 <= base -> base < target <= 32 ->
  0 <= i < 2 ^ (target - base) ->
  0 <= ipToInt (getNetworkAddress ip base) /\
  0 < 2 ^ (32 - target) /\
  ipToInt (getNetworkAddress ip base) + i * 2 ^ (32 - target)
    + 2 ^ (32 - target) <= 2 ^ 32 /\
  2 ^ (target - base) * 2 ^ (32 - target) = 2 ^ (32 - base).
Proof.
  intros Hip Hb Ht Hi.
  rewrite getNetworkAddress_int by (assumption || lia).
  destruct (block_bounds (ipToInt ip) (32 - base)) as [[H0 _] H1];
    [lia | now apply ipToInt_range |].
  assert (HS : 0 < 2 ^ (32 - target)) by (apply pow2_pos; lia).
  assert (HNS : 2 ^ (target - base) * 2 ^ (32 - target) = 2 ^ (32 - base)).
  { rewrite <- Z.pow_add_r by lia. f_equal. ring. }
  repeat split; try assumption. nia.
Qed.

Lemma subnetAt_ints (ip : string) (base target i : Z) :
  isValidIP ip = true -> 1 <= base -> base < target <= 32 ->
  0 <= i < 2 ^ (target - base) ->
  let s := subnetAt (ipToInt (getNetworkAddress ip base))
                    (2 ^ (32 - target)) target i in
  ipToInt (networkAddress s)
  = ipToInt (getNetworkAddress ip base) + i * 2 ^ (32 - target) /\
  ipToInt (broadcastAddress s)
  = ipToInt (getNetworkAddress ip base) + i * 2 ^ (32 - target)
    + 2 ^ (32 - target) - 1.
Proof.
  intros Hip Hb Ht Hi s. subst s.
  destruct (split_bounds ip base target i Hip Hb Ht Hi) as (H0 & HS & Hle & _).
  rewrite subnetAt_network_int, subnetAt_broadcast_int.
  rewrite (ToUint32_small (_ + i * _)) by nia.
  split; [reflexivity |]. apply ToUint32_small. nia.
Qed.

(** The split of a network of prefix 1 to 31: exactly [2^(target-base)]
    subnets in ascending order, numbered from 1; subnet [k] starts at the base
    network plus [(k-1) * 2^(32-target)] and ends [2^(32-target) - 1] later;
    each subnet starts right after its predecessor ends, the first starts at
    the base network address and the last ends at the base broadcast
    address. *)
Theorem calculateSubnets_split_blocks (ip : string) (base target : Z) :
  isValidIP ip = true -> 1 <= base -> base < target <= 32 ->
  exists subnets : list Subnet,
    calculateSubnets ip base (Some target) = Return subnets /\
    Z.of_nat (List.length subnets) = 2 ^ (target - base) /\
    (forall k, 1 <= k <= 2 ^ (target - base) ->
       exists s, nth_error subnets (Z.to_nat (k - 1)) = Some s /\
         subnetNumber s = k /\
         ipToInt (networkAddress s)
         = ipToInt (getNetworkAddress ip base) + (k - 1) * 2 ^ (32 - target) /\
         ipToInt (broadcastAddress s)
         = ipToInt (networkAddress s) + 2 ^ (32 - target) - 1) /\
    (forall k s s', 1 <= k < 2 ^ (target - base) ->
       nth_error subnets (Z.to_nat (k - 1)) = Some s ->
       nth_error subnets (Z.to_nat k) = Some s' ->
       ipToInt (networkAddress s') = ipToInt (broadcastAddress s) + 1) /\
    (forall s, nth_error subnets 0 = Some s ->
       ipToInt (networkAddress s) = ipToInt (getNetworkAddress ip base)) /\
    (forall s, nth_error subnets (Z.to_nat (2 ^ (target - base) - 1)) = Some s ->
       ipToInt (broadcastAddress s) = ipToInt (getBroadcastAddress ip base)).
Proof.
  intros Hip Hb Ht.
  exists (enumerated ip base target).
  assert (HN : 1 <= 2 ^ (target - base)).
  { assert (0 < 2 ^ (target - base)) by (apply pow2_pos; lia). lia. }
  assert (Hat : forall k, 1 <= k <= 2 ^ (target - base) ->
            forall s, nth_error (enumerated ip base target) (Z.to_nat (k - 1)) = Some s ->
              subnetNumber s = k /\
              ipToInt (networkAddress s)
              = ipToInt (getNetworkAddress ip base) + (k - 1) * 2 ^ (32 - target) /\
              ipToInt (broadcastAddress s)
              = ipToInt (getNetworkAddress ip base) + (k - 1) * 2 ^ (32 - target)
                + 2 ^ (32 - target) - 1).
  { intros k Hk s Hs. rewrite enumerated_nth in Hs by assumption.
    injection Hs as <-.
    destruct (subnetAt_ints ip base target (k - 1) Hip Hb Ht) as [Hn Hbc]; [lia |].
    split; [cbn [subnetAt subnetNumber]; lia |]. now split. }
  split; [apply calculateSubnets_split; (assumption || lia) |].
  split; [apply enumerated_length |].
  split; [| split; [| split]].
  - intros k Hk. eexists. split; [now apply enumerated_nth |].
    destruct (Hat k Hk _ (enumerated_nth ip base target k Hk)) as (H1 & H2 & H3).
    split; [exact H1 |]. split; [exact H2 |]. rewrite H3, H2. ring.
  - intros k s s' Hk Hs Hs'.
    destruct (Hat k ltac:(lia) s Hs) as (_ & _ & H3).
    replace k with (k + 1 - 1) in Hs' by ring.
    destruct (Hat (k + 1) ltac:(lia) s' Hs') as (_ & H2 & _).
    rewrite H2, H3. ring.
  - intros s Hs. change 0%nat with (Z.to_nat (1 - 1)) in Hs.
    destruct (Hat 1 ltac:(lia) s Hs) as (_ & H2 & _). rewrite H2. ring.
  - intros s Hs.
    destruct (Hat (2 ^ (target - base)) ltac:(lia) s Hs) as (_ & _ & H3).
    rewrite H3, getBroadcastAddress_last by (assumption || lia).
    destruct (split_bounds ip base target 0 Hip Hb Ht ltac:(lia)) as (_ & _ & _ & HNS).
    rewrite <- HNS. ring.
Qed.

Lemma calculateSubnets_split_blocks_witness :
  exists subnets : list Subnet,
    calculateSubnets "192.168.1.0" 24 (Some 26) = Return subnets /\
    Z.of_nat (List.length subnets) = 2 ^ (26 - 24).
Proof.
  destruct (calculateSubnets_split_blocks "192.168.1.0" 24 26)
    as (subnets & H1 & H2 & _); [reflexivity | lia | lia |].
  exists subnets. split; assumption.
Defined.

(** C1, at base prefix 0.  [getNetworkAddress ip 0] leaves the address
    unchanged (the mask [0xFFFFFFFF << 32] is all ones), so the split of
    192.168.1.0/0 into two /1 networks starts at 192.168.1.0 and wraps around
    modulo 2^32: the second subnet starts at 64.168.1.0, below the first,
    which is not the base network integer plus [2^31], and the first subnet's
    broadcast address lies below its network address. *)
Theorem calculateSubnets_base_0 :
  isValidIP "192.168.1.0" = true /\
  getNetworkAddress "192.168.1.0" 0 = "192.168.1.0" /\
  exists s1 s2,
    calculateSubnets "192.168.1.0" 0 (Some 1) = Return [s1; s2] /\
    networkAddress s1 = "192.168.1.0" /\
    broadcastAddress s1 = "64.168.0.255" /\
    networkAddress s2 = "64.168.1.0" /\
    broadcastAddress s2 = "192.168.0.255" /\
    ipToInt (networkAddress s2)
    <> ipToInt (getNetworkAddress "192.168.1.0" 0) + (2 - 1) * 2 ^ (32 - 1) /\
    ipToInt (networkAddress s2) < ipToInt (networkAddress s1) /\
    ipToInt (broadcastAddress s1) < ipToInt (networkAddress s1).
Proof.
  split; [reflexivity |]. split; [reflexivity |].
  eexists. eexists. split; [vm_compute; reflexivity |].
  cbn [networkAddress broadcastAddress].
  repeat split; try reflexivity. vm_compute. discriminate.
Qed.

End Split.

(** ** Failures *)

(** What a returned array tells about the call. *)
Lemma calculateSubnets_Return (ip : string) (b : Z) (t : option Z)
      (subnets : list Subnet) :
  calculateSubnets ip b t = Return subnets ->
  isValidIP ip = true /\ 0 <= b <= 32 /\
  ((t = None \/ t = Some b) /\ subnets = singleNetwork ip b \/
   exists n, t = Some n /\ b < n <= 32 /\ subnets = enumerated ip b n).
Proof.
  intros H.
  destruct (isValidIP ip) eqn:Hip;
    [| unfold calculateSubnets in H; rewrite Hip in H; discriminate H].
  destruct (isValidPrefix b) eqn:Hb;
    [| unfold calculateSubnets in H; rewrite Hip, Hb in H; discriminate H].
  apply isValidPrefix_iff in Hb.
  split; [reflexivity |]. split; [assumption |].
  destruct t as [n |].
  - destruct (Z.eq_dec n b) as [-> | Hne].
    + rewrite calculateSubnets_single in H by auto.
      injection H as <-. left. auto.
    + destruct (isValidPrefix n) eqn:Hn.
      * apply isValidPrefix_iff in Hn.
        destruct (Z.ltb_spec b n) as [Hlt | Hge].
        -- rewrite calculateSubnets_split in H by (assumption || lia).
           injection H as <-. right. exists n. repeat split; lia.
        -- unfold calculateSubnets in H.
           rewrite Hip, (proj2 (isValidPrefix_iff b) Hb) in H.
           rewrite (proj2 (isValidPrefix_iff n) Hn) in H. cbn [negb] in H.
           replace (n =? b) with false in H by (symmetry; apply Z.eqb_neq; lia).
           replace (n <=? b) with true in H by (symmetry; apply Z.leb_le; lia).
           discriminate H.
      * unfold calculateSubnets in H.
        rewrite Hip, (proj2 (isValidPrefix_iff b) Hb), Hn in H. cbn [negb] in H.
        replace (n =? b) with false in H by (symmetry; apply Z.eqb_neq; lia).
        discriminate H.
  - rewrite calculateSubnets_single in H by auto.
    injection H as <-. left. auto.
Qed.

(** C6. [calculateSubnets] throws a message of its own for an invalid
    address text, for an invalid base prefix, for an invalid target prefix and
    for a valid target prefix below the base prefix; the four messages are
    pairwise different; a target prefix equal to the base prefix is no error
    and gives the single network; and whenever an array is returned all
    inputs were valid and the array is complete (one subnet without a split,
    [2^(target-base)] subnets with one). *)
Theorem calculateSubnets_failures :
  (forall ip b t, isValidIP ip = false ->
     calculateSubnets ip b t = Throw "Invalid IP address") /\
  (forall ip b t, isValidIP ip = true -> isValidPrefix b = false ->
     calculateSubnets ip b t = Throw "Invalid base prefix") /\
  (forall ip b n, isValidIP ip = true -> isValidPrefix b = true ->
     isValidPrefix n = false ->
     calculateSubnets ip b (Some n) = Throw "Invalid new prefix") /\
  (forall ip b n, isValidIP ip = true -> isValidPrefix b = true ->
     isValidPrefix n = true -> n < b ->
     calculateSubnets ip b (Some n)
     = Throw "New prefix must be larger than base prefix") /\
  NoDup [ "Invalid IP address"; "Invalid base prefix"; "Invalid new prefix";
          "New prefix must be larger than base prefix" ] /\
  (forall ip b, isValidIP ip = true -> isValidPrefix b = true ->
     calculateSubnets ip b (Some b) = Return (singleNetwork ip b) /\
     List.length (singleNetwork ip b) = 1%nat) /\
  (forall ip b t subnets, calculateSubnets ip b t = Return subnets ->
     isValidIP ip = true /\ isValidPrefix b = true /\
     match t with
     | None => List.length subnets = 1%nat
     | Some n => isValidPrefix n = true /\ b <= n /\
                 Z.of_nat (List.length subnets) = 2 ^ (n - b)
     end).
Proof.
  split; [| split; [| split; [| split; [| split; [| split]]]]].
  - intros ip b t Hip. unfold calculateSubnets. now rewrite Hip.
  - intros ip b t Hip Hb. unfold calculateSubnets. now rewrite Hip, Hb.
  - intros ip b n Hip Hb Hn. unfold calculateSubnets.
    rewrite Hip, Hb, Hn. cbn [negb].
    destruct (Z.eqb_spec n b) as [-> | _]; [congruence | reflexivity].
  - intros ip b n Hip Hb Hn Hlt. unfold calculateSubnets.
    rewrite Hip, Hb, Hn. cbn [negb].
    replace (n =? b) with false by (symmetry; apply Z.eqb_neq; lia).
    replace (n <=? b) with true by (symmetry; apply Z.leb_le; lia).
    reflexivity.
  - repeat constructor; cbn [In]; intuition discriminate.
  - intros ip b Hip Hb. apply isValidPrefix_iff in Hb.
    split; [apply calculateSubnets_single; auto | reflexivity].
  - intros ip b t subnets H.
    destruct (calculateSubnets_Return ip b t subnets H)
      as (Hip & Hb & [[Ht ->] | (n & -> & Hn & ->)]).
    + split; [assumption |]. split; [now apply isValidPrefix_iff |].
      destruct Ht as [-> | ->]; [reflexivity |].
      split; [now apply isValidPrefix_iff |]. split; [lia |].
      now rewrite Z.sub_diag.
    + split; [assumption |]. split; [now apply isValidPrefix_iff |].
      split; [apply isValidPrefix_iff; lia |]. split; [lia |].
      apply enumerated_length.
Qed.

Lemma calculateSubnets_failures_witness :
  calculateSubnets "256.1.1.1" 24 (Some 26) = Throw "Invalid IP address" /\
  calculateSubnets "192.168.1.0" 33 (Some 26) = Throw "Invalid base prefix" /\
  calculateSubnets "192.168.1.0" 24 (Some 40) = Throw "Invalid new prefix" /\
  calculateSubnets "192.168.1.0" 24 (Some 16)
  = Throw "New prefix must be larger than base prefix" /\
  calculateSubnets "192.168.1.0" 24 (Some 24)
  = Return (singleNetwork "192.168.1.0" 24) /\
  (isValidIP "192.168.1.0" = true /\ isValidPrefix 24 = true /\
   isValidPrefix 26 = true /\ 24 <= 26 /\
   Z.of_nat (List.length (enumerated "192.168.1.0" 24 26)) = 2 ^ (26 - 24)).
Proof.
  destruct calculateSubnets_failures as (H1 & H2 & H3 & H4 & _ & H5 & H6).
  split; [apply H1; reflexivity |].
  split; [apply H2; reflexivity |].
  split; [apply H3; reflexivity |].
  split; [apply H4; (reflexivity || lia) |].
  split; [apply H5; reflexivity |].
  apply (H6 "192.168.1.0" 24 (Some 26)). reflexivity.
Defined.

(** ** Host counts and the usable range *)

Lemma getUsableHosts_eq (p : Z) :
  getUsableHosts p = if 31 <=? p then 0 else 2 ^ (32 - p) - 2.
Proof.
  unfold getUsableHosts, Math_pow.
  destruct (Z.leb_spec 31 p), (Z.geb_spec p 31); (reflexivity || lia).
Qed.

(** The network and broadcast integers of every subnet that
    [calculateSubnets] produces, and how far they are from the ends of the
    address space when the base prefix is at least 1. *)
Lemma produced_subnet (ip : string) (base : Z) (target : option Z)
      (subnets : list Subnet) (s : Subnet) :
  calculateSubnets ip base target = Return subnets -> In s subnets ->
  exists x y,
    isUint32 x /\ isUint32 y /\
    networkAddress s = intToIP x /\ broadcastAddress s = intToIP y /\
    firstUsable s = getFirstUsable (intToIP x) /\
    lastUsable s = getLastUsable (intToIP y) /\
    (1 <= base -> prefix s <= 31 -> x + 1 < 2 ^ 32 /\ 0 < y).
Proof.
  intros H Hs.
  destruct (calculateSubnets_Return ip base target subnets H)
    as (Hip & Hb & [[_ ->] | (n & -> & Hn & ->)]).
  - destruct Hs as [<- | []].
    cbn [networkAddress broadcastAddress firstUsable lastUsable prefix].
    exists (ipToInt (getNetworkAddress ip base)),
           (ipToInt (getBroadcastAddress ip base)).
    assert (Hy : isUint32 (ipToInt (getBroadcastAddress ip base))).
    { rewrite getBroadcastAddress_eq, ipToInt_intToIP by apply ToUint32_range.
      apply ToUint32_range. }
    assert (En : intToIP (ipToInt (getNetworkAddress ip base))
                 = getNetworkAddress ip base).
    { rewrite getNetworkAddress_eq, ipToInt_intToIP by apply ToUint32_range.
      reflexivity. }
    assert (Eb : intToIP (ipToInt (getBroadcastAddress ip base))
                 = getBroadcastAddress ip base).
    { rewrite getBroadcastAddress_eq.
      rewrite (ipToInt_intToIP (ToUint32 _)) by apply ToUint32_range.
      reflexivity. }
    rewrite En, Eb.
    split; [apply getNetworkAddress_range |]. split; [exact Hy |].
    repeat (split; [reflexivity |]).
    intros H1 H31.
    rewrite getBroadcastAddress_last by (assumption || lia).
    rewrite getNetworkAddress_int by (assumption || lia).
    destruct (block_bounds (ipToInt ip) (32 - base)) as [[H0 _] Hle];
      [lia | now apply ipToInt_range |].
    pose proof (pow2_ge_2 (32 - base)). lia.
  - apply enumerated_In in Hs. destruct Hs as (i & Hi & ->).
    cbn [subnetAt networkAddress broadcastAddress firstUsable lastUsable prefix].
    rewrite !ushr_0.
    eexists. eexists.
    split; [apply ToUint32_range |]. split; [apply ToUint32_range |].
    repeat (split; [reflexivity |]).
    intros H1 H31.
    destruct (split_bounds ip base n i Hip H1 Hn Hi) as (H0 & HS & Hle & _).
    pose proof (pow2_ge_2 (32 - n)).
    rewrite (ToUint32_small (_ + i * _)) by nia.
    rewrite ToUint32_small by nia. nia.
Qed.

(** Host counts and the usable range of the returned subnets.
    [getUsableHosts p] is 0 for [p >= 31] and [2^(32-p) - 2] otherwise,
    [getTotalAddresses p] is [2^(32-p)], so for [p <= 30] the usable hosts
    are the total addresses minus 2.  In every returned subnet the first
    usable address is the network address plus 1 and the last usable address
    is the broadcast address minus 1, both modulo 2^32; they are exactly
    network + 1 and broadcast - 1 in every subnet of prefix at most 31
    returned for a base prefix of at least 1. *)
Theorem usable_hosts_and_range :
  (forall p, 0 <= p <= 32 ->
     getUsableHosts p = (if 31 <=? p then 0 else 2 ^ (32 - p) - 2) /\
     getTotalAddresses p = 2 ^ (32 - p) /\
     (p <= 30 -> getUsableHosts p = getTotalAddresses p - 2)) /\
  (forall ip base target subnets s,
     calculateSubnets ip base target = Return subnets -> In s subnets ->
     ipToInt (firstUsable s) = (ipToInt (networkAddress s) + 1) mod 2 ^ 32 /\
     ipToInt (lastUsable s) = (ipToInt (broadcastAddress s) - 1) mod 2 ^ 32 /\
     (1 <= base -> prefix s <= 31 ->
      ipToInt (firstUsable s) = ipToInt (networkAddress s) + 1 /\
      ipToInt (lastUsable s) = ipToInt (broadcastAddress s) - 1)).
Proof.
  split.
  - intros p Hp. rewrite getUsableHosts_eq. unfold getTotalAddresses, Math_pow.
    split; [reflexivity |]. split; [reflexivity |].
    intros H30. destruct (Z.leb_spec 31 p); [lia | reflexivity].
  - intros ip base target subnets s H Hs.
    destruct (produced_subnet ip base target subnets s H Hs)
      as (x & y & Hx & Hy & -> & -> & -> & -> & Hexact).
    rewrite getFirstUsable_int, getLastUsable_int by assumption.
    rewrite !ipToInt_intToIP by assumption.
    split; [reflexivity |]. split; [reflexivity |].
    intros H1 H31. destruct (Hexact H1 H31) as [Hfx Hly].
    unfold isUint32 in *.
    rewrite !Z.mod_small by lia. split; reflexivity.
Qed.

Lemma usable_hosts_and_range_witness :
  (getUsableHosts 24 = 254 /\ getTotalAddresses 24 = 256 /\
   getUsableHosts 24 = getTotalAddresses 24 - 2) /\
  (let s := subnetAt (ipToInt (getNetworkAddress "192.168.1.0" 24))
                     (2 ^ (32 - 26)) 26 1 in
   ipToInt (firstUsable s) = (ipToInt (networkAddress s) + 1) mod 2 ^ 32 /\
   ipToInt (lastUsable s) = (ipToInt (broadcastAddress s) - 1) mod 2 ^ 32 /\
   ipToInt (firstUsable s) = ipToInt (networkAddress s) + 1 /\
   ipToInt (lastUsable s) = ipToInt (broadcastAddress s) - 1).
Proof.
  split.
  - destruct (proj1 usable_hosts_and_range 24) as (H1 & H2 & H3); [lia |].
    split; [exact H1 |]. split; [exact H2 |]. apply H3. lia.
  - intros s.
    destruct (proj2 usable_hosts_and_range "192.168.1.0" 24 (Some 26)
                (enumerated "192.168.1.0" 24 26) s) as (H1 & H2 & H3).
    + reflexivity.
    + vm_compute. right. left. reflexivity.
    + split; [exact H1 |]. split; [exact H2 |].
      apply H3; [lia | vm_compute; discriminate].
Defined.

(** At prefix 32 the usable addresses wrap around the ends of the address
    space: in the split of 0.0.0.0/31 into /32 networks the first subnet has
    broadcast address "0.0.0.0" and last usable address "255.255.255.255";
    and the single network 255.255.255.255/32 has first usable address
    "0.0.0.0". *)
Lemma usable_range_wraps_at_32 :
  (exists subnets s,
     calculateSubnets "0.0.0.0" 31 (Some 32) = Return subnets /\ In s subnets /\
     broadcastAddress s = "0.0.0.0" /\ lastUsable s = "255.255.255.255" /\
     ipToInt (lastUsable s) <> ipToInt (broadcastAddress s) - 1) /\
  (exists subnets s,
     calculateSubnets "255.255.255.255" 32 None = Return subnets /\ In s subnets /\
     networkAddress s = "255.255.255.255" /\ firstUsable s = "0.0.0.0" /\
     ipToInt (firstUsable s) <> ipToInt (networkAddress s) + 1).
Proof.
  split.
  - eexists. eexists. split; [vm_compute; reflexivity |].
    split; [left; reflexivity |].
    cbn [broadcastAddress lastUsable].
    split; [reflexivity |]. split; [reflexivity |]. vm_compute. discriminate.
  - eexists. eexists. split; [vm_compute; reflexivity |].
    split; [left; reflexivity |].
    cbn [networkAddress firstUsable].
    split; [reflexivity |]. split; [reflexivity |]. vm_compute. discriminate.
Qed.

(** ** Binary rendering *)

Section Binary.

Lemma parseBits_binaryDigits (p : positive) :
  forall (acc : string) (a : Z),
    parseBits (binaryDigits p acc) a
    = parseBits acc (a * 2 ^ Z.of_nat (Pos.size_nat p) + Zpos p).
Proof.
  induction p as [q IH | q IH |]; intros acc a; cbn [binaryDigits Pos.size_nat].
  - rewrite IH. cbn [parseBits Ascii.eqb Bool.eqb]. f_equal.
    rewrite Nat2Z.inj_succ, Z.pow_succ_r by lia. lia.
  - rewrite IH. cbn [parseBits Ascii.eqb Bool.eqb]. f_equal.
    rewrite Nat2Z.inj_succ, Z.pow_succ_r by lia. lia.
  - cbn [parseBits Ascii.eqb Bool.eqb]. f_equal.
    change (Z.of_nat 1) with 1. lia.
Qed.

Lemma length_binaryDigits (p : positive) :
  forall acc : string,
    String.length (binaryDigits p acc)
    = (Pos.size_nat p + String.length acc)%nat.
Proof.
  induction p as [q IH | q IH |]; intros acc; cbn [binaryDigits Pos.size_nat].
  - rewrite IH. cbn [String.length]. lia.
  - rewrite IH. cbn [String.length]. lia.
  - reflexivity.
Qed.

Lemma parseBits_Z_toString2 (n : Z) : 0 <= n -> parseBits (Z_toString2 n) 0 = Some n.
Proof.
  intros Hn. destruct n as [| p | p]; [reflexivity | | lia].
  cbn [Z_toString2]. rewrite parseBits_binaryDigits. reflexivity.
Qed.

(** Leading zeros do not change the value. *)
Lemma parseBits_zeros (k : nat) (s : string) :
  parseBits (cycle "0" "0" k ++ s) 0 = parseBits s 0.
Proof.
  assert (H : forall rest, rest = "0" \/ rest = EmptyString ->
            parseBits (cycle "0" rest k ++ s) 0 = parseBits s 0).
  { induction k as [| k IH]; intros rest Hrest; [reflexivity |].
    destruct Hrest as [-> | ->]; cbn [cycle append parseBits Ascii.eqb Bool.eqb];
      apply IH; auto. }
  apply H. now left.
Qed.

Lemma length_zeros (k : nat) : String.length (cycle "0" "0" k) = k.
Proof.
  assert (H : forall rest, rest = "0" \/ rest = EmptyString ->
            String.length (cycle "0" rest k) = k).
  { induction k as [| k IH]; intros rest Hrest; [reflexivity |].
    destruct Hrest as [-> | ->]; cbn [cycle String.length]; f_equal;
      apply IH; auto. }
  apply H. now left.
Qed.

Lemma length_append (s t : string) :
  String.length (s ++ t) = (String.length s + String.length t)%nat.
Proof.
  induction s as [| c s IH]; [reflexivity |]. cbn [append String.length].
  now rewrite IH.
Qed.

Lemma length_padStart_0 (s : string) (target : nat) :
  String.length (padStart s target "0") = Nat.max target (String.length s).
Proof.
  unfold padStart. destruct (Nat.leb_spec target (String.length s)) as [H | H].
  - lia.
  - rewrite length_append, length_zeros. lia.
Qed.

Lemma parseBits_padStart_0 (s : string) (target : nat) :
  parseBits (padStart s target "0") 0 = parseBits s 0.
Proof.
  unfold padStart. destruct (Nat.leb target (String.length s)); [reflexivity |].
  apply parseBits_zeros.
Qed.

Lemma size_nat_byte (p : positive) :
  Zpos p <= 255 -> (Pos.size_nat p <= 8)%nat.
Proof.
  intros H. destruct (Pos.eq_dec p 255) as [-> | Hne]; [cbn; lia |].
  change 8%nat with (Pos.size_nat 255).
  apply Pos.size_nat_monotone. lia.
Qed.

Lemma size_nat_above_byte (p : positive) :
  256 <= Zpos p -> (9 <= Pos.size_nat p)%nat.
Proof.
  intros H. destruct (Pos.eq_dec p 256) as [-> | Hne]; [cbn; lia |].
  change 9%nat with (Pos.size_nat 256).
  apply Pos.size_nat_monotone. lia.
Qed.

(** X1.  [toBinary8] renders a non-negative integer in binary without losing
    digits: the text reads back to the number, has exactly 8 digits for a
    byte and more than 8 beyond. *)
Theorem toBinary8_reads_back (n : Z) :
  0 <= n ->
  parseBits (toBinary8 (Some n)) 0 = Some n /\
  (n <= 255 -> String.length (toBinary8 (Some n)) = 8%nat) /\
  (256 <= n -> (8 < String.length (toBinary8 (Some n)))%nat).
Proof.
  intros Hn. unfold toBinary8. cbn [toString2].
  split; [rewrite parseBits_padStart_0; now apply parseBits_Z_toString2 |].
  rewrite length_padStart_0.
  destruct n as [| p | p]; [cbn; split; lia | | lia].
  cbn [Z_toString2]. rewrite length_binaryDigits. cbn [String.length].
  split; intros H.
  - pose proof (size_nat_byte p H). lia.
  - pose proof (size_nat_above_byte p H). lia.
Qed.

Lemma toBinary8_reads_back_witness :
  parseBits (toBinary8 (Some 300)) 0 = Some 300 /\
  String.length (toBinary8 (Some 77)) = 8%nat /\
  (8 < String.length (toBinary8 (Some 300%Z)))%nat.
Proof.
  split; [apply (toBinary8_reads_back 300); lia |].
  split.
  - apply (toBinary8_reads_back 77); lia.
  - apply (toBinary8_reads_back 300); lia.
Defined.

Lemma noDot_toBinary8 (n : Z) : isByte n -> noDot (toBinary8 (Some n)) = true.
Proof.
  unfold isByte. intros H.
  apply (range_check (fun n => noDot (toBinary8 (Some n))) 0 256);
    [vm_compute; reflexivity | lia].
Qed.

Lemma toBinary8_byte (n : Z) :
  isByte n ->
  parseBits (toBinary8 (Some n)) 0 = Some n /\
  String.length (toBinary8 (Some n)) = 8%nat.
Proof.
  unfold isByte. intros H.
  assert (Hb : (match parseBits (toBinary8 (Some n)) 0 with
                | Some m => m =? n
                | None => false
                end
                && Nat.eqb (String.length (toBinary8 (Some n))) 8)%bool = true).
  { apply (range_check
             (fun n => (match parseBits (toBinary8 (Some n)) 0 with
                        | Some m => m =? n
                        | None => false
                        end
                        && Nat.eqb (String.length (toBinary8 (Some n))) 8)%bool)
             0 256); [vm_compute; reflexivity | lia]. }
  apply andb_prop in Hb. destruct Hb as [Hv Hl].
  destruct (parseBits (toBinary8 (Some n)) 0) as [m |]; [| discriminate].
  apply Z.eqb_eq in Hv. apply Nat.eqb_eq in Hl. now subst.
Qed.

Lemma ipToBinary_dotted (a b c d : Z) :
  isByte a -> isByte b -> isByte c -> isByte d ->
  ipToBinary (dotted a b c d)
  = join "." (map (fun n => toBinary8 (Some n)) [a; b; c; d]).
Proof.
  intros Ha Hb Hc Hd. unfold ipToBinary.
  rewrite split_dotted by assumption. cbn [map].
  now rewrite !parseInt_byte by assumption.
Qed.

(** X2.  On a valid address text [ipToBinary] gives four groups of eight binary
    digits, 35 characters in all, that stand for the same 32-bit integer as
    the text. *)
Theorem ipToBinary_decodes (ip : string) :
  isValidIP ip = true ->
  decodeDottedBinary (ipToBinary ip) = Some (ipToInt ip) /\
  String.length (ipToBinary ip) = 35%nat.
Proof.
  intros Hip.
  destruct (isValidIP_inv ip Hip) as (a & b & c & d & Ha & Hb & Hc & Hd & ->).
  rewrite ipToBinary_dotted, ipToInt_dotted by assumption.
  destruct (toBinary8_byte a Ha) as (Pa & La).
  destruct (toBinary8_byte b Hb) as (Pb & Lb).
  destruct (toBinary8_byte c Hc) as (Pc & Lc).
  destruct (toBinary8_byte d Hd) as (Pd & Ld).
  split.
  - unfold decodeDottedBinary. cbn [map]. rewrite !join_cons2.
    rewrite !split_app_dot by now apply noDot_toBinary8.
    cbn [join]. rewrite split_noDot by now apply noDot_toBinary8.
    cbn [map]. now rewrite Pa, Pb, Pc, Pd.
  - cbn [map]. rewrite !join_cons2. cbn [join].
    repeat (rewrite length_append; cbn [String.length]).
    rewrite La, Lb, Lc, Ld. reflexivity.
Qed.

Lemma ipToBinary_decodes_witness :
  decodeDottedBinary (ipToBinary "192.168.1.0") = Some (ipToInt "192.168.1.0") /\
  String.length (ipToBinary "192.168.1.0") = 35%nat.
Proof.
  apply (ipToBinary_decodes "192.168.1.0"). reflexivity.
Defined.

(** X3.  For the prefixes 1 to 32 the binary octets of the mask that
    [getBinaryBreakdown] reports, read together, are [p] ones followed by
    [32 - p] zeros, whatever the address. *)
Theorem getBinaryBreakdown_mask_binary (ip : string) (p : Z) :
  1 <= p <= 32 ->
  String.concat ""
    (Breakdown.binary (Breakdown.fields (Breakdown.mask (getBinaryBreakdown ip p))))
  = repeatChar "1" (Z.to_nat p) ++ repeatChar "0" (Z.to_nat (32 - p)).
Proof.
  intros Hp. cbn [getBinaryBreakdown Breakdown.mask Breakdown.fields Breakdown.binary].
  apply String.eqb_eq.
  apply (range_check
           (fun p => String.eqb
              (String.concat ""
                 (map toBinary8 (map parseInt (split "." (prefixToMask p)))))
              (repeatChar "1" (Z.to_nat p) ++ repeatChar "0" (Z.to_nat (32 - p))))
           1 32); [vm_compute; reflexivity | lia].
Qed.

Lemma getBinaryBreakdown_mask_binary_witness :
  String.concat ""
    (Breakdown.binary
       (Breakdown.fields (Breakdown.mask (getBinaryBreakdown "10.1.2.3" 26))))
  = repeatChar "1" (Z.to_nat 26) ++ repeatChar "0" (Z.to_nat (32 - 26)).
Proof.
  apply (getBinaryBreakdown_mask_binary "10.1.2.3" 26). lia.
Defined.

End Binary.

(** ** Private addresses *)

Ltac leb_cases :=
  repeat match goal with
    | |- context [?x <=? ?y] => destruct (Z.leb_spec x y)
    | |- context [?x =? ?y] => destruct (Z.eqb_spec x y)
    end.

Section Private.

Lemma isPrivateIP_int (ip : string) :
  isPrivateIP ip =
  ((167772160 <=? ipToInt ip) && (ipToInt ip <=? 184549375))
  || ((2886729728 <=? ipToInt ip) && (ipToInt ip <=? 2887778303))
  || ((3232235520 <=? ipToInt ip) && (ipToInt ip <=? 3232301055)).
Proof.
  unfold isPrivateIP. cbv zeta.
  change (ipToInt "10.0.0.0") with 167772160.
  change (ipToInt "10.255.255.255") with 184549375.
  change (ipToInt "172.16.0.0") with 2886729728.
  change (ipToInt "172.31.255.255") with 2887778303.
  change (ipToInt "192.168.0.0") with 3232235520.
  change (ipToInt "192.168.255.255") with 3232301055.
  destruct ((167772160 <=? ipToInt ip) && (ipToInt ip <=? 184549375));
    [reflexivity |].
  destruct ((2886729728 <=? ipToInt ip) && (ipToInt ip <=? 2887778303));
    [reflexivity |].
  destruct ((3232235520 <=? ipToInt ip) && (ipToInt ip <=? 3232301055));
    reflexivity.
Qed.

Lemma isPrivateIP_dotted (a b c d : Z) :
  isByte a -> isByte b -> isByte c -> isByte d ->
  isPrivateIP (dotted a b c d) = privateOctets a b.
Proof.
  unfold isByte. intros Ha Hb Hc Hd.
  rewrite isPrivateIP_int, ipToInt_dotted by assumption.
  unfold privateOctets. leb_cases; cbn [andb orb]; (reflexivity || lia).
Qed.

(** X4.  [isPrivateIP] on a valid address text looks at the first two octets
    only: 10.x.x.x, 172.16.x.x to 172.31.x.x and 192.168.x.x are private and
    nothing else is. *)
Theorem isPrivateIP_by_octets (ip : string) :
  isValidIP ip = true ->
  exists a b c d,
    map parseInt (split "." ip) = [Some a; Some b; Some c; Some d] /\
    isPrivateIP ip =
    ((a =? 10) || ((a =? 172) && (16 <=? b) && (b <=? 31))
     || ((a =? 192) && (b =? 168))).
Proof.
  intros Hip.
  destruct (isValidIP_inv ip Hip) as (a & b & c & d & Ha & Hb & Hc & Hd & ->).
  exists a, b, c, d. split.
  - rewrite split_dotted by assumption. cbn [map].
    now rewrite !parseInt_byte by assumption.
  - now apply isPrivateIP_dotted.
Qed.

Lemma isPrivateIP_by_octets_witness :
  exists a b c d,
    map parseInt (split "." "172.20.1.9") = [Some a; Some b; Some c; Some d] /\
    isPrivateIP "172.20.1.9" =
    ((a =? 10) || ((a =? 172) && (16 <=? b) && (b <=? 31))
     || ((a =? 192) && (b =? 168))).
Proof.
  apply (isPrivateIP_by_octets "172.20.1.9"). reflexivity.
Defined.

(** X5.  A private address is of class A, B or C: 10.x.x.x is class A,
    172.16-31.x.x class B and 192.168.x.x class C. *)
Theorem isPrivateIP_class (ip : string) :
  isValidIP ip = true -> isPrivateIP ip = true ->
  getNetworkClass ip = "A" \/ getNetworkClass ip = "B" \/ getNetworkClass ip = "C".
Proof.
  intros Hip Hpriv.
  destruct (isValidIP_inv ip Hip) as (a & b & c & d & Ha & Hb & Hc & Hd & ->).
  rewrite isPrivateIP_dotted in Hpriv by assumption.
  rewrite getNetworkClass_dotted by assumption.
  unfold privateOctets in Hpriv.
  apply orb_true_iff in Hpriv. destruct Hpriv as [Hpriv | H192].
  - apply orb_true_iff in Hpriv. destruct Hpriv as [H10 | H172].
    + apply Z.eqb_eq in H10. subst a. left. reflexivity.
    + apply andb_true_iff in H172. destruct H172 as [H172 _].
      apply andb_true_iff in H172. destruct H172 as [H172 _].
      apply Z.eqb_eq in H172. subst a. right. left. reflexivity.
  - apply andb_true_iff in H192. destruct H192 as [H192 _].
    apply Z.eqb_eq in H192. subst a. right. right. reflexivity.
Qed.

Lemma isPrivateIP_class_witness :
  getNetworkClass "192.168.1.0" = "A" \/ getNetworkClass "192.168.1.0" = "B"
  \/ getNetworkClass "192.168.1.0" = "C".
Proof.
  apply (isPrivateIP_class "192.168.1.0"); reflexivity.
Defined.

(** Rounding down to a multiple of [2^k] stays above every smaller multiple
    of [2^k], and the block ends below every larger one. *)
Lemma block_above (n k m : Z) :
  0 <= k -> 2 ^ k * m <= n -> 2 ^ k * m <= 2 ^ k * (n / 2 ^ k).
Proof.
  intros Hk H. pose proof (pow2_pos k Hk) as Hpos.
  apply Z.mul_le_mono_nonneg_l; [lia |].
  apply Z.div_le_lower_bound; lia.
Qed.

Lemma block_below (n k m : Z) :
  0 <= k -> n < 2 ^ k * m -> 2 ^ k * (n / 2 ^ k) + 2 ^ k <= 2 ^ k * m.
Proof.
  intros Hk H. pose proof (pow2_pos k Hk) as Hpos.
  assert (Hq : n / 2 ^ k < m) by (apply Z.div_lt_upper_bound; lia).
  nia.
Qed.

(** A block of [2^k] addresses, [k <= 16], that contains a private address
    lies inside the private range. *)
Lemma private_block (n k : Z) :
  0 <= k <= 16 ->
  (167772160 <= n <= 184549375 \/ 2886729728 <= n <= 2887778303 \/
   3232235520 <= n <= 3232301055) ->
  forall x, 2 ^ k * (n / 2 ^ k) <= x < 2 ^ k * (n / 2 ^ k) + 2 ^ k ->
    167772160 <= x <= 184549375 \/ 2886729728 <= x <= 2887778303 \/
    3232235520 <= x <= 3232301055.
Proof.
  intros Hk Hn x Hx.
  assert (H16 : 2 ^ 16 = 2 ^ k * 2 ^ (16 - k)).
  { rewrite <- Z.pow_add_r by lia. f_equal. lia. }
  change (2 ^ 16) with 65536 in H16.
  assert (Hmul : forall c, 65536 * c = 2 ^ k * (2 ^ (16 - k) * c)).
  { intros c. rewrite H16. ring. }
  destruct Hn as [[Hlo Hhi] | [[Hlo Hhi] | [Hlo Hhi]]].
  - left.
    pose proof (block_above n k (2 ^ (16 - k) * 2560) ltac:(lia)) as Ha.
    pose proof (block_below n k (2 ^ (16 - k) * 2816) ltac:(lia)) as Hb.
    rewrite <- Hmul in Ha, Hb. lia.
  - right. left.
    pose proof (block_above n k (2 ^ (16 - k) * 44048) ltac:(lia)) as Ha.
    pose proof (block_below n k (2 ^ (16 - k) * 44064) ltac:(lia)) as Hb.
    rewrite <- Hmul in Ha, Hb. lia.
  - right. right.
    pose proof (block_above n k (2 ^ (16 - k) * 49320) ltac:(lia)) as Ha.
    pose proof (block_below n k (2 ^ (16 - k) * 49321) ltac:(lia)) as Hb.
    rewrite <- Hmul in Ha, Hb. lia.
Qed.

Lemma isPrivateIP_intToIP (x : Z) :
  isUint32 x ->
  (167772160 <= x <= 184549375 \/ 2886729728 <= x <= 2887778303 \/
   3232235520 <= x <= 3232301055) ->
  isPrivateIP (intToIP x) = true.
Proof.
  intros Hx H. rewrite isPrivateIP_int, ipToInt_intToIP by assumption.
  leb_cases; cbn [andb orb]; (reflexivity || lia).
Qed.

Lemma isPrivateIP_range (ip : string) :
  isPrivateIP ip = true ->
  167772160 <= ipToInt ip <= 184549375 \/
  2886729728 <= ipToInt ip <= 2887778303 \/
  3232235520 <= ipToInt ip <= 3232301055.
Proof.
  rewrite isPrivateIP_int. intros H.
  apply orb_true_iff in H. destruct H as [H | H].
  - apply orb_true_iff in H. destruct H as [H | H];
      apply andb_true_iff in H; destruct H as [H1 H2];
      apply Z.leb_le in H1, H2; lia.
  - apply andb_true_iff in H. destruct H as [H1 H2].
    apply Z.leb_le in H1, H2. lia.
Qed.

End Private.

(** ** A network and its block *)

Section Normalisation.

Lemma getNetworkAddress_intToIP (ip : string) (p : Z) :
  getNetworkAddress ip p = intToIP (ipToInt (getNetworkAddress ip p)).
Proof.
  rewrite getNetworkAddress_eq at 1.
  rewrite getNetworkAddress_eq, ipToInt_intToIP by apply ToUint32_range.
  reflexivity.
Qed.

Lemma getBroadcastAddress_intToIP (ip : string) (p : Z) :
  getBroadcastAddress ip p = intToIP (ipToInt (getBroadcastAddress ip p)).
Proof.
  rewrite getBroadcastAddress_eq at 1.
  rewrite getBroadcastAddress_eq.
  rewrite (ipToInt_intToIP (ToUint32 _)) by apply ToUint32_range.
  reflexivity.
Qed.

Lemma isValidIP_getNetworkAddress (ip : string) (p : Z) :
  isValidIP (getNetworkAddress ip p) = true.
Proof.
  rewrite getNetworkAddress_intToIP.
  apply isValidIP_intToIP, getNetworkAddress_range.
Qed.

(** Taking the network address twice is taking it once. *)
Lemma getNetworkAddress_idempotent (ip : string) (p : Z) :
  isValidIP ip = true -> 0 <= p <= 32 ->
  getNetworkAddress (getNetworkAddress ip p) p = getNetworkAddress ip p.
Proof.
  intros Hip Hp.
  destruct (Z.eq_dec p 0) as [-> | Hne].
  - apply getNetworkAddress_0, isValidIP_getNetworkAddress.
  - rewrite (getNetworkAddress_intToIP (getNetworkAddress ip p) p).
    rewrite (getNetworkAddress_intToIP ip p) at 2. f_equal.
    rewrite getNetworkAddress_int
      by (apply isValidIP_getNetworkAddress || lia).
    rewrite (getNetworkAddress_int ip p) by (assumption || lia).
    pose proof (pow2_pos (32 - p) ltac:(lia)) as Hpos.
    rewrite (Z.mul_comm (2 ^ (32 - p)) (ipToInt ip / 2 ^ (32 - p))).
    rewrite Z.div_mul by lia. ring.
Qed.

(** X7.  The address lies between the network address and the broadcast address
    that the engine computes for it, at every prefix from 0 to 32. *)
Theorem address_between_network_and_broadcast (ip : string) (p : Z) :
  isValidIP ip = true -> 0 <= p <= 32 ->
  ipToInt (getNetworkAddress ip p) <= ipToInt ip
  <= ipToInt (getBroadcastAddress ip p).
Proof.
  intros Hip Hp. pose proof (ipToInt_range ip Hip) as Hn.
  destruct (Z.eq_dec p 0) as [-> | H0].
  - rewrite getBroadcastAddress_below_32, getNetworkAddress_int_0 by (assumption || lia).
    change (2 ^ (32 - 0) - 1) with (Z.ones 32).
    rewrite lor_ones_32 by assumption.
    unfold isUint32 in Hn. change (Z.ones 32) with 4294967295.
    change (2 ^ 32) with 4294967296 in Hn. lia.
  - destruct (block_bounds (ipToInt ip) (32 - p)) as [[Hlo Hle] Hhi];
      [lia | assumption |].
    destruct (Z.eq_dec p 32) as [-> | H32].
    + rewrite getBroadcastAddress_32_any, getNetworkAddress_int by (assumption || lia).
      change (ipToInt "255.255.255.255") with 4294967295.
      unfold isUint32 in Hn. change (2 ^ 32) with 4294967296 in Hn. lia.
    + rewrite getBroadcastAddress_last, getNetworkAddress_int by (assumption || lia).
      pose proof (pow2_pos (32 - p) ltac:(lia)) as Hpos.
      pose proof (Z.mul_succ_div_gt (ipToInt ip) (2 ^ (32 - p)) Hpos). lia.
Qed.

Lemma address_between_network_and_broadcast_witness :
  ipToInt (getNetworkAddress "192.168.1.77" 26) <= ipToInt "192.168.1.77"
  <= ipToInt (getBroadcastAddress "192.168.1.77" 26).
Proof.
  apply (address_between_network_and_broadcast "192.168.1.77" 26);
    [reflexivity | lia].
Defined.

(** X8.  [calculateSubnets] depends on the address only through its network
    address: giving it the network address of [ip] instead of [ip] changes
    nothing, whatever the prefixes. *)
Theorem calculateSubnets_of_network (ip : string) (p : Z) (t : option Z) :
  isValidIP ip = true ->
  calculateSubnets (getNetworkAddress ip p) p t = calculateSubnets ip p t.
Proof.
  intros Hip. unfold calculateSubnets.
  rewrite Hip, isValidIP_getNetworkAddress. cbn [negb].
  destruct (isValidPrefix p) eqn:Hp; cbn [negb]; [| reflexivity].
  apply isValidPrefix_iff in Hp.
  unfold singleNetwork, getBroadcastAddress.
  rewrite getNetworkAddress_idempotent by assumption.
  reflexivity.
Qed.

Lemma calculateSubnets_of_network_witness :
  calculateSubnets (getNetworkAddress "192.168.1.77" 24) 24 (Some 26)
  = calculateSubnets "192.168.1.77" 24 (Some 26).
Proof.
  apply (calculateSubnets_of_network "192.168.1.77" 24 (Some 26)). reflexivity.
Defined.

End Normalisation.

(** ** What every returned subnet satisfies *)

Section Returned.

Lemma isValidIP_ushr_0 (x : Z) : isValidIP (intToIP (ushr x 0)) = true.
Proof. rewrite ushr_0. apply isValidIP_intToIP, ToUint32_range. Qed.

Lemma isValidIP_prefixToMask (p : Z) : isValidIP (prefixToMask p) = true.
Proof. unfold prefixToMask. cbv zeta. apply isValidIP_ushr_0. Qed.

Lemma isValidIP_getBroadcastAddress (ip : string) (p : Z) :
  isValidIP (getBroadcastAddress ip p) = true.
Proof. unfold getBroadcastAddress. cbv zeta. apply isValidIP_ushr_0. Qed.

Lemma returned_valid (ip : string) (base : Z) (target : option Z)
        (subnets : list Subnet) (s : Subnet) :
  calculateSubnets ip base target = Return subnets -> In s subnets ->
  isValidIP (networkAddress s) = true /\
  isValidIP (broadcastAddress s) = true /\
  isValidIP (firstUsable s) = true /\
  isValidIP (lastUsable s) = true /\
  isValidIP (subnetMask s) = true.
Proof.
  intros H Hs.
  destruct (calculateSubnets_Return ip base target subnets H)
    as (Hip & Hb & [[_ ->] | (n & -> & Hn & ->)]).
  - destruct Hs as [<- | []].
    cbn [networkAddress broadcastAddress firstUsable lastUsable subnetMask].
    repeat split.
    + apply isValidIP_getNetworkAddress.
    + apply isValidIP_getBroadcastAddress.
    + unfold getFirstUsable. cbv zeta. apply isValidIP_ushr_0.
    + unfold getLastUsable. cbv zeta. apply isValidIP_ushr_0.
    + apply isValidIP_prefixToMask.
  - apply enumerated_In in Hs. destruct Hs as (i & Hi & ->).
    cbn [subnetAt networkAddress broadcastAddress firstUsable lastUsable subnetMask].
    repeat split.
    + apply isValidIP_ushr_0.
    + apply isValidIP_ushr_0.
    + unfold getFirstUsable. cbv zeta. apply isValidIP_ushr_0.
    + unfold getLastUsable. cbv zeta. apply isValidIP_ushr_0.
    + apply isValidIP_prefixToMask.
Qed.

(** X9.  Every address text in every subnet that [calculateSubnets] returns is a
    valid address text: network, broadcast, first usable, last usable and
    mask. *)
Theorem returned_addresses_valid (ip : string) (base : Z) (target : option Z)
        (subnets : list Subnet) (s : Subnet) :
  calculateSubnets ip base target = Return subnets -> In s subnets ->
  isValidIP (networkAddress s) = true /\
  isValidIP (broadcastAddress s) = true /\
  isValidIP (firstUsable s) = true /\
  isValidIP (lastUsable s) = true /\
  isValidIP (subnetMask s) = true.
Proof.
  intros H Hs. now apply (returned_valid ip base target subnets s).
Qed.

Lemma returned_addresses_valid_witness :
  let s := subnetAt (ipToInt (getNetworkAddress "10.0.0.0" 0)) (2 ^ (32 - 2)) 2 3 in
  isValidIP (networkAddress s) = true /\
  isValidIP (broadcastAddress s) = true /\
  isValidIP (firstUsable s) = true /\
  isValidIP (lastUsable s) = true /\
  isValidIP (subnetMask s) = true.
Proof.
  intros s.
  apply (returned_addresses_valid "10.0.0.0" 0 (Some 2)
           (enumerated "10.0.0.0" 0 2) s).
  - reflexivity.
  - vm_compute. right. right. right. left. reflexivity.
Defined.

Lemma sumTotalAddresses_map (B S q : Z) (f : nat -> Z) (l : list nat) :
  sumTotalAddresses (map (fun k => subnetAt B S q (f k)) l)
  = Z.of_nat (List.length l) * getTotalAddresses q.
Proof.
  induction l as [| k l IH]; [reflexivity |].
  cbn [map List.length]. unfold sumTotalAddresses in *. cbn [fold_right].
  rewrite IH. cbn [subnetAt totalAddresses]. lia.
Qed.

(** X10.  The address counts of the returned subnets add up to the address count
    of the base network. *)
Theorem returned_total_addresses (ip : string) (base : Z) (target : option Z)
        (subnets : list Subnet) :
  calculateSubnets ip base target = Return subnets ->
  sumTotalAddresses subnets = getTotalAddresses base.
Proof.
  intros H.
  destruct (calculateSubnets_Return ip base target subnets H)
    as (Hip & Hb & [[_ ->] | (n & -> & Hn & ->)]).
  - unfold sumTotalAddresses, singleNetwork. cbn [fold_right totalAddresses]. lia.
  - unfold enumerated. rewrite sumTotalAddresses_map, length_seq.
    rewrite Z2Nat.id by (apply Z.pow_nonneg; lia).
    unfold getTotalAddresses, Math_pow.
    rewrite <- Z.pow_add_r by lia. f_equal. lia.
Qed.

Lemma returned_total_addresses_witness :
  sumTotalAddresses (enumerated "192.168.1.0" 24 26) = getTotalAddresses 24.
Proof.
  apply (returned_total_addresses "192.168.1.0" 24 (Some 26)). reflexivity.
Defined.

(** X6.  Splitting a private network of prefix 16 to 31 gives subnets whose
    network and broadcast addresses are private. *)
Theorem private_network_private_subnets (ip : string) (base : Z)
        (target : option Z) (subnets : list Subnet) (s : Subnet) :
  isPrivateIP ip = true -> 16 <= base <= 31 ->
  calculateSubnets ip base target = Return subnets -> In s subnets ->
  isPrivateIP (networkAddress s) = true /\
  isPrivateIP (broadcastAddress s) = true.
Proof.
  intros Hpriv Hbase H Hs.
  destruct (calculateSubnets_Return ip base target subnets H)
    as (Hip & Hb & Hshape).
  pose proof (ipToInt_range ip Hip) as Hn.
  apply isPrivateIP_range in Hpriv.
  pose proof (private_block (ipToInt ip) (32 - base) ltac:(lia) Hpriv) as Hblock.
  destruct (block_bounds (ipToInt ip) (32 - base)) as [[Hlo Hle] Hhi];
    [lia | assumption |].
  pose proof (pow2_pos (32 - base) ltac:(lia)) as Hpos.
  assert (HB : ipToInt (getNetworkAddress ip base)
               = 2 ^ (32 - base) * (ipToInt ip / 2 ^ (32 - base)))
    by (apply getNetworkAddress_int; (assumption || lia)).
  assert (Hin : forall x,
            ipToInt (getNetworkAddress ip base) <= x
            < ipToInt (getNetworkAddress ip base) + 2 ^ (32 - base) ->
            isPrivateIP (intToIP x) = true).
  { intros x Hx. rewrite HB in Hx. apply isPrivateIP_intToIP.
    - unfold isUint32. lia.
    - now apply Hblock. }
  destruct Hshape as [[_ ->] | (n & -> & Hn' & ->)].
  - destruct Hs as [<- | []]. cbn [networkAddress broadcastAddress].
    rewrite getNetworkAddress_intToIP, getBroadcastAddress_intToIP.
    rewrite getBroadcastAddress_last by (assumption || lia).
    split; apply Hin; lia.
  - apply enumerated_In in Hs. destruct Hs as (i & Hi & ->).
    destruct (split_bounds ip base n i Hip ltac:(lia) Hn' Hi)
      as (H0 & HS & Hsum & HNS).
    cbn [subnetAt networkAddress broadcastAddress]. rewrite !ushr_0.
    rewrite (ToUint32_small (_ + i * _)) by (unfold isUint32; nia).
    rewrite ToUint32_small by (unfold isUint32; nia).
    split; apply Hin; nia.
Qed.

Lemma private_network_private_subnets_witness :
  let s := subnetAt (ipToInt (getNetworkAddress "192.168.1.0" 24)) (2 ^ (32 - 26)) 26 2 in
  isPrivateIP (networkAddress s) = true /\
  isPrivateIP (broadcastAddress s) = true.
Proof.
  intros s.
  apply (private_network_private_subnets "192.168.1.0" 24 (Some 26)
           (enumerated "192.168.1.0" 24 26) s).
  - reflexivity.
  - lia.
  - reflexivity.
  - vm_compute. right. right. left. reflexivity.
Defined.

(** X11.  The usable host count is never negative, stays below the address count,
    and is 0 exactly for the prefixes 31 and 32. *)
Theorem getUsableHosts_bounds (p : Z) :
  0 <= p <= 32 ->
  0 <= getUsableHosts p < getTotalAddresses p /\
  (getUsableHosts p = 0 <-> 31 <= p).
Proof.
  intros Hp. rewrite getUsableHosts_eq. unfold getTotalAddresses, Math_pow.
  pose proof (pow2_pos (32 - p) ltac:(lia)) as Hpos.
  destruct (Z.leb_spec 31 p) as [H31 | H30].
  - split; [lia |]. split; intros; (reflexivity || lia).
  - assert (H4 : 2 ^ 2 <= 2 ^ (32 - p)) by (apply Z.pow_le_mono_r; lia).
    change (2 ^ 2) with 4 in H4.
    split; [lia |]. split; intros; lia.
Qed.

Lemma getUsableHosts_bounds_witness :
  0 <= getUsableHosts 30 < getTotalAddresses 30 /\
  (getUsableHosts 30 = 0 <-> 31 <= 30).
Proof.
  apply (getUsableHosts_bounds 30). lia.
Defined.

End Returned.

(** ** The binary breakdown *)

Section BreakdownFacts.

Lemma octets_intToIP (x : Z) :
  isUint32 x ->
  map parseInt (split "." (intToIP x))
  = [ Some ((x / 16777216) mod 256); Some ((x / 65536) mod 256);
      Some ((x / 256) mod 256); Some (x mod 256) ].
Proof.
  intros Hx. rewrite intToIP_dotted by assumption.
  destruct (octets_of_uint32 x Hx) as (Ha & Hb & Hc & Hd & _).
  rewrite split_dotted by assumption. cbn [map].
  now rewrite !parseInt_byte by assumption.
Qed.

Lemma land_mod_256 (x y : Z) :
  Z.land x y mod 256 = Z.land (x mod 256) (y mod 256).
Proof.
  change 256 with (2 ^ 8). rewrite <- !Z.land_ones by lia.
  apply Z.bits_inj'. intros i Hi. rewrite !Z.land_spec.
  destruct (Z.testbit x i), (Z.testbit y i), (Z.testbit (Z.ones 8) i);
    reflexivity.
Qed.

(** The octets of a bitwise AND are the bitwise ANDs of the octets. *)
Lemma land_octet (x y k : Z) :
  0 <= k ->
  (Z.land x y / 2 ^ k) mod 256
  = Z.land ((x / 2 ^ k) mod 256) ((y / 2 ^ k) mod 256).
Proof.
  intros Hk. rewrite <- !Z.shiftr_div_pow2 by assumption.
  rewrite Z.shiftr_land. apply land_mod_256.
Qed.

Lemma maskInt_range (p : Z) : isUint32 (maskInt p).
Proof. unfold maskInt. rewrite ushr_0. apply ToUint32_range. Qed.

(** X12.  In the breakdown of a valid address each octet of the network address is
    the bitwise AND of the octet of the address and the octet of the mask,
    and the network and host bits add up to 32. *)
Theorem getBinaryBreakdown_network_octets (ip : string) (p : Z) :
  isValidIP ip = true ->
  exists i0 i1 i2 i3 m0 m1 m2 m3,
    Breakdown.octets (Breakdown.ip (getBinaryBreakdown ip p))
    = [Some i0; Some i1; Some i2; Some i3] /\
    Breakdown.octets (Breakdown.fields (Breakdown.mask (getBinaryBreakdown ip p)))
    = [Some m0; Some m1; Some m2; Some m3] /\
    Breakdown.octets (Breakdown.network (getBinaryBreakdown ip p))
    = [Some (Z.land i0 m0); Some (Z.land i1 m1);
       Some (Z.land i2 m2); Some (Z.land i3 m3)] /\
    Breakdown.networkBits (getBinaryBreakdown ip p)
    + Breakdown.hostBits (getBinaryBreakdown ip p) = 32.
Proof.
  intros Hip. pose proof (ipToInt_range ip Hip) as Hn.
  pose proof (maskInt_range p) as Hm.
  cbn [getBinaryBreakdown Breakdown.ip Breakdown.mask Breakdown.fields
       Breakdown.network Breakdown.octets Breakdown.networkBits
       Breakdown.hostBits].
  pose proof (octets_intToIP (ipToInt ip) Hn) as Eip.
  rewrite (intToIP_ipToInt ip Hip) in Eip. rewrite Eip. clear Eip.
  unfold prefixToMask. cbv zeta. fold (maskInt p).
  rewrite (octets_intToIP (maskInt p)) by assumption.
  rewrite getNetworkAddress_eq, ToUint32_band.
  rewrite (ToUint32_small (ipToInt ip)), (ToUint32_small (maskInt p)) by assumption.
  rewrite octets_intToIP.
  2:{ rewrite <- (ToUint32_small (ipToInt ip)) by assumption.
      rewrite <- (ToUint32_small (maskInt p)) at 1 by assumption.
      rewrite <- ToUint32_band. apply ToUint32_range. }
  do 8 eexists. split; [reflexivity |]. split; [reflexivity |].
  split; [| ring].
  change 16777216 with (2 ^ 24). change 65536 with (2 ^ 16).
  change 256 with (2 ^ 8) at 1 3 5.
  rewrite !land_octet by lia. rewrite land_mod_256. reflexivity.
Qed.

Lemma getBinaryBreakdown_network_octets_witness :
  exists i0 i1 i2 i3 m0 m1 m2 m3,
    Breakdown.octets (Breakdown.ip (getBinaryBreakdown "192.168.1.77" 26))
    = [Some i0; Some i1; Some i2; Some i3] /\
    Breakdown.octets
      (Breakdown.fields (Breakdown.mask (getBinaryBreakdown "192.168.1.77" 26)))
    = [Some m0; Some m1; Some m2; Some m3] /\
    Breakdown.octets (Breakdown.network (getBinaryBreakdown "192.168.1.77" 26))
    = [Some (Z.land i0 m0); Some (Z.land i1 m1);
       Some (Z.land i2 m2); Some (Z.land i3 m3)] /\
    Breakdown.networkBits (getBinaryBreakdown "192.168.1.77" 26)
    + Breakdown.hostBits (getBinaryBreakdown "192.168.1.77" 26) = 32.
Proof.
  apply (getBinaryBreakdown_network_octets "192.168.1.77" 26). reflexivity.
Defined.

End BreakdownFacts.

(** ** The calculation summary *)

Section SummaryFacts.

Lemma enumerated_first (ip : string) (base n : Z) :
  0 <= base < n ->
  exists rest,
    enumerated ip base n
    = subnetAt (ipToInt (getNetworkAddress ip base)) (2 ^ (32 - n)) n 0 :: rest.
Proof.
  intros H. unfold enumerated.
  pose proof (pow2_pos (n - base) ltac:(lia)) as Hpos.
  destruct (Z.to_nat (2 ^ (n - base))) as [| m] eqn:E; [lia |].
  cbn [seq map]. eexists. reflexivity.
Qed.

(** X13.  When [getCalculationSummary] returns, its fields agree with its subnets:
    the effective prefix is the target prefix when one was given and the base
    prefix otherwise, the number of subnets is 2 to the power of their
    difference, the first subnet starts at the base network, and every subnet
    carries the effective prefix and the mask, host count and address count
    of the summary. *)
Theorem getCalculationSummary_consistent (ip : string) (b : Z) (t : option Z)
        (summary : Summary.t) :
  getCalculationSummary ip b t = ReturnSummary summary ->
  Summary.effectivePrefix summary = match t with Some n => n | None => b end /\
  Summary.totalSubnets summary = 2 ^ (Summary.effectivePrefix summary - b) /\
  (exists first rest,
     Summary.subnets summary = first :: rest /\
     networkAddress first = Summary.baseNetwork summary) /\
  (forall s, In s (Summary.subnets summary) ->
     prefix s = Summary.effectivePrefix summary /\
     subnetMask s = Summary.subnetMask summary /\
     usableHosts s = Summary.hostsPerSubnet summary /\
     totalAddresses s = Summary.totalAddresses summary).
Proof.
  unfold getCalculationSummary. cbv zeta.
  destruct (calculateSubnets ip b t) as [message | subnets] eqn:H;
    [discriminate |].
  intros [= <-].
  cbn [Summary.effectivePrefix Summary.totalSubnets Summary.subnets
       Summary.baseNetwork Summary.subnetMask Summary.hostsPerSubnet
       Summary.totalAddresses].
  destruct (calculateSubnets_Return ip b t subnets H)
    as (Hip & Hb & [[Ht ->] | (n & -> & Hn & ->)]).
  - assert (He : effective t b = b).
    { destruct Ht as [-> | ->]; cbn [effective]; [reflexivity |].
      destruct (b =? 0); reflexivity. }
    rewrite He. split; [destruct Ht as [-> | ->]; reflexivity |].
    split; [rewrite Z.sub_diag; reflexivity |].
    split; [eexists; eexists; split; reflexivity |].
    intros s [<- | []]. repeat split.
  - assert (He : effective (Some n) b = n).
    { cbn [effective]. destruct (Z.eqb_spec n 0); [lia | reflexivity]. }
    rewrite He. split; [reflexivity |].
    split; [apply enumerated_length |].
    split.
    + destruct (enumerated_first ip b n ltac:(lia)) as (rest & ->).
      eexists. eexists. split; [reflexivity |].
      cbn [subnetAt networkAddress]. rewrite Z.mul_0_l, Z.add_0_r.
      rewrite ushr_0_small by apply getNetworkAddress_range.
      symmetry. apply getNetworkAddress_intToIP.
    + intros s Hs. apply enumerated_In in Hs. destruct Hs as (i & _ & ->).
      repeat split.
Qed.

Lemma getCalculationSummary_consistent_witness :
  exists summary,
    getCalculationSummary "192.168.1.0" 24 (Some 26) = ReturnSummary summary /\
    Summary.effectivePrefix summary = 26 /\
    Summary.totalSubnets summary = 2 ^ (Summary.effectivePrefix summary - 24).
Proof.
  eexists. split; [reflexivity |].
  destruct (getCalculationSummary_consistent "192.168.1.0" 24 (Some 26) _ eq_refl)
    as (H1 & H2 & _).
  split; assumption.
Defined.

End SummaryFacts.

(** ** The calculate handler *)

Section Handler.
Import App.

Variable display : Summary.t -> Breakdown.t -> option string.



(** X14.  A click passes the handler's validation, that is, it is not
    answered with one of the four validation messages, exactly when the
    trimmed address text is valid, the base prefix field parses to an integer
    from 0 to 32, and the new prefix field is blank or parses to an integer
    above the base prefix and at most 32; whatever the display steps do. *)
Theorem handleCalculate_validation
        (baseIPValue basePrefixValue newPrefixValue : string) :
  (forall message,
     In message
        [ "Invalid IP address. Please enter a valid IPv4 address (e.g., 192.168.1.0)";
          "Invalid base prefix. Please enter a value between 8 and 30.";
          "Invalid new prefix. Please enter a value between 8 and 30, or leave empty.";
          "New prefix must be larger than base prefix to split the network." ] ->
     handleCalculate display baseIPValue basePrefixValue newPrefixValue
     <> reject message) <->
  isValidIP (trim baseIPValue) = true /\
  exists p, parseInt basePrefixValue = Some p /\ 0 <= p <= 32 /\
    (trim newPrefixValue = EmptyString \/
     exists n, parseInt (trim newPrefixValue) = Some n /\ p < n <= 32).
Proof.
  assert (Hcalc : forall ip p t message,
            In message
               [ "Invalid IP address. Please enter a valid IPv4 address (e.g., 192.168.1.0)";
                 "Invalid base prefix. Please enter a value between 8 and 30.";
                 "Invalid new prefix. Please enter a value between 8 and 30, or leave empty.";
                 "New prefix must be larger than base prefix to split the network." ] ->
            calculate display ip p t <> reject message).
  { intros ip p t message Hin. unfold calculate, reject.
    destruct (getCalculationSummary ip p t) as [m | summary].
    - cbn [In] in Hin.
      destruct Hin as [<- | [<- | [<- | [<- | []]]]]; discriminate.
    - cbv zeta. destruct (display summary (getBinaryBreakdown ip p));
        discriminate. }
  unfold handleCalculate. cbv zeta. split.
  - intros H.
    destruct (isValidIP (trim baseIPValue)) eqn:Hip; cbn [negb] in H.
    2:{ exfalso. eapply H; [| reflexivity]. cbn [In]. auto. }
    split; [reflexivity |].
    destruct (parseInt basePrefixValue) as [p |].
    2:{ exfalso. eapply H; [| reflexivity]. cbn [In]. auto. }
    destruct (isValidPrefix p) eqn:Hp; cbn [negb] in H.
    2:{ exfalso. eapply H; [| reflexivity]. cbn [In]. auto. }
    apply isValidPrefix_iff in Hp.
    exists p. split; [reflexivity |]. split; [assumption |].
    destruct (trim newPrefixValue) as [| c rest] eqn:Hc; [now left |].
    right.
    destruct (parseInt (String c rest)) as [n |].
    2:{ exfalso. eapply H; [| reflexivity]. cbn [In]. auto. }
    destruct (isValidPrefix n) eqn:Hn; cbn [negb] in H.
    2:{ exfalso. eapply H; [| reflexivity]. cbn [In]. auto. }
    apply isValidPrefix_iff in Hn.
    destruct (Z.leb_spec n p).
    { exfalso. eapply H; [| reflexivity]. cbn [In]. auto 6. }
    exists n. split; [reflexivity | lia].
  - intros (Hip & p & Hb & Hp & Hnew) message Hin.
    rewrite Hip, Hb, (proj2 (isValidPrefix_iff p) Hp). cbn [negb].
    destruct Hnew as [-> | (n & Hn & Hrange)].
    + now apply Hcalc.
    + destruct (trim newPrefixValue) as [| c rest] eqn:Hc.
      * now apply Hcalc.
      * rewrite Hn, (proj2 (isValidPrefix_iff n)) by lia. cbn [negb].
        destruct (Z.leb_spec n p); [lia |]. now apply Hcalc.
Qed.

End Handler.

Lemma handleCalculate_validation_witness :
  isValidIP (trim " 192.168.1.0 ") = true /\
  exists p, parseInt "24" = Some p /\ 0 <= p <= 32 /\
    (trim " 26" = EmptyString \/
     exists n, parseInt (trim " 26") = Some n /\ p < n <= 32).
Proof.
  apply (proj1 (handleCalculate_validation
                  (fun _ _ => Some "Invalid string length")
                  " 192.168.1.0 " "24" " 26")).
  intros message Hin Heq. apply (f_equal App.stored) in Heq.
  vm_compute in Heq. discriminate Heq.
Defined.



(** ** Decimal rendering of any integer *)

Section Decimal.

Lemma parseDigits_acc (d : Decimal.uint) :
  forall acc : positive,
    parseDigits (NilEmpty.string_of_uint d) (Some (Zpos acc))
    = Some (Zpos (Pos.of_uint_acc d acc)).
Proof.
  induction d; intros acc;
    cbn [NilEmpty.string_of_uint parseDigits Pos.of_uint_acc];
    [reflexivity | ..];
    (match goal with
     | |- context [digitValue ?c] =>
         let v := eval vm_compute in (digitValue c) in
         change (digitValue c) with v
     end; cbv iota; rewrite <- IHd; f_equal; f_equal;
     lia).
Qed.

Lemma parseDigits_zero (d : Decimal.uint) :
  parseDigits (NilEmpty.string_of_uint d) (Some 0)
  = Some (Z.of_N (Pos.of_uint d)).
Proof.
  induction d; cbn [NilEmpty.string_of_uint parseDigits Pos.of_uint];
    [reflexivity | ..];
    match goal with
    | |- context [digitValue ?c] =>
        let v := eval vm_compute in (digitValue c) in
        change (digitValue c) with v
    end; cbv iota.
  - exact IHd.
  - apply (parseDigits_acc d 1).
  - apply (parseDigits_acc d 2).
  - apply (parseDigits_acc d 3).
  - apply (parseDigits_acc d 4).
  - apply (parseDigits_acc d 5).
  - apply (parseDigits_acc d 6).
  - apply (parseDigits_acc d 7).
  - apply (parseDigits_acc d 8).
  - apply (parseDigits_acc d 9).
Qed.

Lemma parseDigits_None (d : Decimal.uint) :
  d <> Decimal.Nil ->
  parseDigits (NilEmpty.string_of_uint d) None = Some (Z.of_N (Pos.of_uint d)).
Proof.
  intros Hd. destruct d; [congruence | ..];
    cbn [NilEmpty.string_of_uint parseDigits Pos.of_uint];
    match goal with
    | |- context [digitValue ?c] =>
        let v := eval vm_compute in (digitValue c) in
        change (digitValue c) with v
    end; cbv iota.
  - apply parseDigits_zero.
  - apply (parseDigits_acc d 1).
  - apply (parseDigits_acc d 2).
  - apply (parseDigits_acc d 3).
  - apply (parseDigits_acc d 4).
  - apply (parseDigits_acc d 5).
  - apply (parseDigits_acc d 6).
  - apply (parseDigits_acc d 7).
  - apply (parseDigits_acc d 8).
  - apply (parseDigits_acc d 9).
Qed.

(** A text that starts with a digit has no white space or sign to skip. *)
Lemma parseInt_digit_first (c : ascii) (r : string) (m : Z) :
  digitValue c <> None ->
  parseDigits (String c r) None = Some m ->
  parseInt (String c r) = Some m.
Proof.
  intros Hc Hm.
  destruct c as [[] [] [] [] [] [] [] []];
    try (exfalso; apply Hc; reflexivity);
    unfold parseInt;
    match goal with
    | |- context [trimStart ?s] => change (trimStart s) with s
    end;
    cbv beta iota zeta; rewrite Hm; f_equal; lia.
Qed.

Lemma string_of_uint_first (d : Decimal.uint) :
  d <> Decimal.Nil ->
  exists c r, NilEmpty.string_of_uint d = String c r /\ digitValue c <> None.
Proof.
  intros Hd. destruct d; [congruence | ..]; cbn [NilEmpty.string_of_uint];
    eexists; eexists; (split; [reflexivity | discriminate]).
Qed.

(** Parsing the decimal rendering of a non-negative integer gives the
    integer. *)
Lemma parseInt_Z_toString (z : Z) : 0 <= z -> parseInt (Z_toString z) = Some z.
Proof.
  intros Hz. destruct z as [| p | p]; [reflexivity | | lia].
  unfold Z_toString. cbn [Z.to_int NilEmpty.string_of_int].
  pose proof (DecimalPos.Unsigned.to_uint_nonnil p) as Hnil.
  destruct (string_of_uint_first _ Hnil) as (c & r & E & Hc).
  rewrite E. apply parseInt_digit_first; [assumption |].
  rewrite <- E, parseDigits_None by assumption.
  now rewrite DecimalPos.Unsigned.of_to.
Qed.

Lemma length_string_of_uint (d : Decimal.uint) :
  String.length (NilEmpty.string_of_uint d) = Decimal.nb_digits d.
Proof.
  induction d; cbn [NilEmpty.string_of_uint String.length Decimal.nb_digits];
    congruence.
Qed.

Lemma of_uint_acc_lower (d : Decimal.uint) :
  forall acc : positive,
    Zpos acc * 10 ^ Z.of_nat (Decimal.nb_digits d)
    <= Zpos (Pos.of_uint_acc d acc).
Proof.
  induction d; intros acc; cbn [Decimal.nb_digits Pos.of_uint_acc];
    [cbn; lia | ..];
    (rewrite Nat2Z.inj_succ, Z.pow_succ_r by lia;
     eapply Z.le_trans; [| apply IHd];
     assert (0 < 10 ^ Z.of_nat (Decimal.nb_digits d))
       by (apply Z.pow_pos_nonneg; lia);
     nia).
Qed.

(** The decimal rendering of a positive number has no leading zero, so a
    number with [k + 1] digits is at least [10^k]. *)
Lemma to_uint_lower (p : positive) :
  10 ^ (Z.of_nat (Decimal.nb_digits (Pos.to_uint p)) - 1) <= Zpos p.
Proof.
  pose proof (DecimalPos.Unsigned.of_to p) as Hof.
  pose proof (DecimalPos.Unsigned.to_of (Pos.to_uint p)) as Hto.
  rewrite Hof in Hto. cbn [N.to_uint] in Hto.
  pose proof (DecimalPos.Unsigned.to_uint_nonzero p) as Hnz.
  assert (Hhead : Decimal.nzhead (Pos.to_uint p) = Pos.to_uint p).
  { rewrite Hto at 2. symmetry. apply DecimalFacts.unorm_nzhead.
    intros Hnil. apply Hnz. rewrite Hto. now apply DecimalFacts.unorm_0. }
  destruct (Pos.to_uint p) as [| d | d | d | d | d | d | d | d | d | d] eqn:E;
    [ cbn in Hof; discriminate Hof
    | exfalso; apply (DecimalFacts.nzhead_nonzero (Decimal.D0 d) d); exact Hhead
    | .. ];
    cbn [Pos.of_uint] in Hof; injection Hof as <-;
    cbn [Decimal.nb_digits]; rewrite Nat2Z.inj_succ;
    replace (Z.succ (Z.of_nat (Decimal.nb_digits d)) - 1)
      with (Z.of_nat (Decimal.nb_digits d)) by lia;
    assert (0 < 10 ^ Z.of_nat (Decimal.nb_digits d))
      by (apply Z.pow_pos_nonneg; lia);
    match goal with
    | |- _ <= Zpos (Pos.of_uint_acc d ?k) =>
        pose proof (of_uint_acc_lower d k)
    end; nia.
Qed.

Lemma Z_toString_digits (n : Z) :
  0 <= n ->
  exists d, Z_toString n = NilEmpty.string_of_uint d /\
    Z.of_N (Pos.of_uint d) = n /\
    (n < 10 ^ 10 -> (Decimal.nb_digits d <= 10)%nat).
Proof.
  intros Hn. destruct n as [| p | p]; [| | lia].
  - exists Decimal.zero. repeat split. intros _. cbn. lia.
  - exists (Pos.to_uint p). split; [reflexivity |].
    split; [now rewrite DecimalPos.Unsigned.of_to |].
    intros Hlt. pose proof (to_uint_lower p) as Hlow.
    destruct (Nat.le_gt_cases (Decimal.nb_digits (Pos.to_uint p)) 10) as [H | H];
      [assumption | exfalso].
    assert (10 ^ 10 <= 10 ^ (Z.of_nat (Decimal.nb_digits (Pos.to_uint p)) - 1))
      by (apply Z.pow_le_mono_r; lia).
    lia.
Qed.

Lemma parseDigits_zeros (s : string) (k : nat) :
  forall rest, rest = "0" \/ rest = EmptyString ->
    parseDigits (cycle "0" rest k ++ s) (Some 0) = parseDigits s (Some 0).
Proof.
  induction k as [| k IH]; intros rest Hrest; [reflexivity |].
  destruct Hrest as [-> | ->]; cbn [cycle append parseDigits];
    change (digitValue "0") with (Some 0); cbv iota;
    change (10 * 0 + 0) with 0; apply IH; auto.
Qed.

End Decimal.

(** ** The exporter *)

Section Offsets.
Import Exporter.

(** X16.  [padOffset] renders a byte offset so that it reads back: for every
    offset that is a safe integer (0 to 2^53 - 1, where a Number is an exact
    integer rendered in plain decimal) parsing the padded text gives the
    offset, and the text is exactly 10 characters long for every offset below
    [10^10]. *)
Theorem padOffset_reads_back (offset : Z) :
  0 <= offset <= 9007199254740991 ->
  parseInt (padOffset offset) = Some offset /\
  (offset < 10 ^ 10 -> String.length (padOffset offset) = 10%nat).
Proof.
  intros [Hn Hsafe].
  destruct (Z_toString_digits offset Hn) as (d & Hs & Hv & Hlen).
  split.
  - unfold padOffset, padStart.
    destruct (Nat.leb_spec 10 (String.length (Z_toString offset))) as [H | H].
    + now apply parseInt_Z_toString.
    + destruct (10 - String.length (Z_toString offset))%nat as [| k] eqn:Ek;
        [lia |].
      cbn [cycle append].
      apply parseInt_digit_first; [discriminate |].
      cbn [parseDigits]. change (digitValue "0") with (Some 0). cbv iota.
      change (10 * 0 + 0) with 0.
      rewrite parseDigits_zeros by auto.
      now rewrite Hs, parseDigits_zero, Hv.
  - intros Hlt. unfold padOffset. rewrite length_padStart_0.
    rewrite Hs, length_string_of_uint. specialize (Hlen Hlt). lia.
Qed.

Lemma padOffset_reads_back_witness :
  parseInt (padOffset 1234) = Some 1234 /\
  String.length (padOffset 1234) = 10%nat.
Proof.
  destruct (padOffset_reads_back 1234) as [H1 H2]; [lia |].
  split; [exact H1 | apply H2; lia].
Defined.

End Offsets.

(** ** The CSV export *)

Section Csv.
Import Exporter.

Variable sep : ascii.

Lemma split_noChar (s : string) : noChar sep s = true -> split sep s = [s].
Proof.
  induction s as [| c rest IH]; [reflexivity |].
  cbn [noChar split]. intros H. apply andb_prop in H. destruct H as [Hc Hr].
  apply negb_true_iff in Hc. rewrite Hc, (IH Hr). reflexivity.
Qed.

Lemma split_app_sep (s r : string) :
  noChar sep s = true -> split sep (s ++ String sep r) = s :: split sep r.
Proof.
  induction s as [| c rest IH]; intros H.
  - cbn [append split]. now rewrite Ascii.eqb_refl.
  - cbn [noChar] in H. apply andb_prop in H. destruct H as [Hc Hr].
    apply negb_true_iff in Hc.
    cbn [append split]. rewrite Hc, (IH Hr). reflexivity.
Qed.

Lemma noChar_append (s t : string) :
  noChar sep (s ++ t) = noChar sep s && noChar sep t.
Proof.
  induction s as [| c rest IH]; [reflexivity |].
  cbn [append noChar]. rewrite IH. now rewrite andb_assoc.
Qed.

(** The lines [lines], each followed by the separator, and then [rest]. *)
Lemma split_lines (lines : list string) (rest : string) :
  (forall l, In l lines -> noChar sep l = true) ->
  split sep (fold_right (fun l acc => l ++ String sep acc) rest lines)
  = (lines ++ split sep rest)%list.
Proof.
  induction lines as [| l lines IH]; intros H; [reflexivity |].
  cbn [fold_right app]. rewrite split_app_sep by (apply H; now left).
  rewrite IH; [reflexivity |]. intros l' Hl'. apply H. now right.
Qed.

Hypothesis sep_no_digit : noChar sep "-0123456789." = true.

Lemma noChar_string_of_uint (d : Decimal.uint) :
  noChar sep (NilEmpty.string_of_uint d) = true.
Proof.
  pose proof sep_no_digit as H. cbn [noChar] in H.
  repeat (apply andb_prop in H; let Hc := fresh "Hc" in destruct H as [Hc H]).
  induction d; cbn [NilEmpty.string_of_uint noChar];
    [reflexivity | ..]; rewrite IHd, andb_true_r; assumption.
Qed.

Lemma noChar_Z_toString (z : Z) : noChar sep (Z_toString z) = true.
Proof.
  pose proof sep_no_digit as H. cbn [noChar] in H.
  apply andb_prop in H. destruct H as [Hminus _].
  unfold Z_toString. destruct (Z.to_int z) as [d | d];
    cbn [NilEmpty.string_of_int noChar].
  - apply noChar_string_of_uint.
  - now rewrite Hminus, noChar_string_of_uint.
Qed.

Lemma noChar_valid (ip : string) : isValidIP ip = true -> noChar sep ip = true.
Proof.
  intros Hip.
  destruct (isValidIP_inv ip Hip) as (a & b & c & d & _ & _ & _ & _ & ->).
  pose proof sep_no_digit as H. cbn [noChar] in H.
  repeat (apply andb_prop in H; let Hc := fresh "Hc" in destruct H as [Hc H]).
  unfold dotted. cbn [map]. rewrite !join_cons2. cbn [join].
  repeat (rewrite noChar_append; cbn [noChar]).
  rewrite !noChar_Z_toString. cbn [andb].
  match goal with Hdot : negb (Ascii.eqb "." sep) = true |- _ => rewrite Hdot end.
  reflexivity.
Qed.

End Csv.

Section CsvExport.
Import Exporter.

Lemma string_app_assoc (a b c : string) : (a ++ b) ++ c = a ++ (b ++ c).
Proof.
  induction a as [| x a IH]; [reflexivity |]. cbn [append]. now rewrite IH.
Qed.

Lemma fold_left_rows (l : list Subnet) (csv : string) :
  fold_left (fun csv subnet => csv ++ csvRow subnet) l csv
  = csv ++ fold_right (fun s acc => csvRow s ++ acc) EmptyString l.
Proof.
  revert csv. induction l as [| s l IH]; intros csv; cbn [fold_left fold_right].
  - clear. induction csv as [| c csv IH]; [reflexivity |].
    cbn [append]. now rewrite <- IH.
  - rewrite IH. now rewrite string_app_assoc.
Qed.

Lemma csvRow_line (s : Subnet) (acc : string) :
  csvRow s ++ acc
  = join "," (csvFields s) ++ String (ascii_of_nat 10) acc.
Proof.
  unfold csvRow, csvFields, LF. cbn [join].
  repeat rewrite string_app_assoc. cbn [append]. reflexivity.
Qed.

Lemma rows_lines (l : list Subnet) :
  fold_right (fun s acc => csvRow s ++ acc) EmptyString l
  = fold_right (fun line acc => line ++ String (ascii_of_nat 10) acc)
      EmptyString (map (fun s => join "," (csvFields s)) l).
Proof.
  induction l as [| s l IH]; [reflexivity |].
  cbn [fold_right map]. rewrite csvRow_line, IH. reflexivity.
Qed.

Lemma comma_no_digit : noChar "," "-0123456789." = true.
Proof. reflexivity. Qed.

Lemma LF_no_digit : noChar (ascii_of_nat 10) "-0123456789." = true.
Proof. reflexivity. Qed.

Lemma csvFields_noChar (sep : ascii) (ip : string) (b : Z) (t : option Z)
      (subnets : list Subnet) (s : Subnet) :
  noChar sep "-0123456789." = true ->
  calculateSubnets ip b t = Return subnets -> In s subnets ->
  forall f, In f (csvFields s) -> noChar sep f = true.
Proof.
  intros Hsep H Hs f Hf.
  destruct (returned_valid ip b t subnets s H Hs) as (V1 & V2 & V3 & V4 & V5).
  unfold csvFields in Hf. cbn [In] in Hf.
  destruct Hf as [<- | [<- | [<- | [<- | [<- | [<- | [<- | [<- | []]]]]]]]];
    (apply noChar_Z_toString || apply noChar_valid); assumption.
Qed.

Lemma split_join_fields (fields : list string) :
  fields <> [] ->
  (forall f, In f fields -> noChar "," f = true) ->
  split "," (join "," fields) = fields.
Proof.
  induction fields as [| f fields IH]; [congruence |]. intros _ H.
  destruct fields as [| g fields].
  - cbn [join]. apply split_noChar. apply H. now left.
  - change (join "," (f :: g :: fields))
      with (f ++ String "," (join "," (g :: fields))).
    rewrite split_app_sep by (apply H; now left).
    rewrite IH; [reflexivity | discriminate |].
    intros f' Hf'. apply H. now right.
Qed.

Lemma join_fields_noChar (sep : ascii) (fields : list string) :
  negb (Ascii.eqb "," sep) = true ->
  (forall f, In f fields -> noChar sep f = true) ->
  noChar sep (join "," fields) = true.
Proof.
  intros Hc. induction fields as [| f fields IH]; intros H; [reflexivity |].
  destruct fields as [| g fields].
  - cbn [join]. apply H. now left.
  - change (join "," (f :: g :: fields))
      with (f ++ String "," (join "," (g :: fields))).
    rewrite noChar_append. cbn [noChar]. rewrite Hc.
    rewrite (H f) by now left. rewrite IH; [reflexivity |].
    intros f' Hf'. apply H. now right.
Qed.

(** X17.  The CSV text of a summary that the engine returned: after 11 lines of
    heading, the last of which names 8 columns, there is one line per subnet,
    in order, and splitting a subnet's line at the commas gives back its 8
    fields. *)
Theorem exportToCSV_rows (ip : string) (b : Z) (t : option Z)
        (summary : Summary.t) (generated : string) :
  getCalculationSummary ip b t = ReturnSummary summary ->
  noChar (ascii_of_nat 10) generated = true ->
  exists csv prelude header,
    exportToCSV summary generated = Some csv /\
    List.length prelude = 11%nat /\
    nth_error prelude 10 = Some header /\
    List.length (split "," header) = 8%nat /\
    split (ascii_of_nat 10) csv
    = (prelude
       ++ map (fun s => join "," (csvFields s)) (Summary.subnets summary)
       ++ [EmptyString])%list /\
    (forall s, In s (Summary.subnets summary) ->
       split "," (join "," (csvFields s)) = csvFields s).
Proof.
  unfold getCalculationSummary. cbv zeta.
  destruct (calculateSubnets ip b t) as [message | subnets] eqn:H;
    [discriminate |].
  intros [= <-] Hgen.
  assert (Hne : exists first rest, subnets = first :: rest).
  { destruct (calculateSubnets_Return ip b t subnets H)
      as (_ & Hb & [[_ ->] | (n & -> & Hn & ->)]).
    - eexists. eexists. reflexivity.
    - destruct (enumerated_first ip b n ltac:(lia)) as (rest & ->).
      eexists. eexists. reflexivity. }
  destruct Hne as (first & rest & ->).
  unfold exportToCSV.
  cbn [Summary.subnets Summary.baseNetwork Summary.basePrefix
       Summary.subnetMask Summary.effectivePrefix].
  cbv beta iota zeta.
  rewrite fold_left_rows, rows_lines.
  set (lf := ascii_of_nat 10) in *.
  set (prelude :=
         [ "Subnet Tutor v2.0 - Export Results";
           "Generated: " ++ generated;
           EmptyString;
           "Configuration Summary";
           "Base Network," ++ getNetworkAddress ip b ++ "/" ++ Z_toString b;
           "Subnet Mask," ++ prefixToMask (effective t b);
           "Effective Prefix,/" ++ Z_toString (effective t b);
           "Total Subnets," ++ Z_toString (Z.of_nat (List.length (first :: rest)));
           "Hosts per Subnet," ++ Z_toString (usableHosts first);
           EmptyString;
           "Subnet #,Network Address,Subnet Mask,Broadcast Address,First Usable,Last Usable,Usable Hosts,Total Addresses" ]).
  eexists. exists prelude. eexists.
  split; [reflexivity |]. split; [reflexivity |].
  split; [reflexivity |]. split; [reflexivity |].
  split.
  - match goal with
    | |- split lf (?csv0 ++ ?R) = _ =>
        replace (csv0 ++ R)
          with (fold_right (fun l acc => l ++ String lf acc) R prelude)
    end.
    2:{ unfold prelude, csvHeader, LF. cbn [fold_right].
        repeat rewrite string_app_assoc. cbn [append]. reflexivity. }
    rewrite split_lines.
    + f_equal. rewrite split_lines; [reflexivity |].
      intros l Hl. apply in_map_iff in Hl. destruct Hl as (s & <- & Hs).
      apply join_fields_noChar; [reflexivity |].
      apply (csvFields_noChar lf ip b t (first :: rest) s LF_no_digit H Hs).
    + intros l Hl. unfold prelude in Hl. cbn [In] in Hl.
      repeat (destruct Hl as [<- | Hl]); try reflexivity; try contradiction;
        repeat (rewrite noChar_append; cbn [noChar]);
        rewrite ?Hgen,
          ?(noChar_Z_toString lf LF_no_digit),
          ?(noChar_valid lf LF_no_digit _ (isValidIP_getNetworkAddress ip b)),
          ?(noChar_valid lf LF_no_digit _ (isValidIP_prefixToMask (effective t b)));
        reflexivity.
  - intros s Hs. apply split_join_fields; [discriminate |].
    apply (csvFields_noChar "," ip b t (first :: rest) s comma_no_digit H Hs).
Qed.

Lemma exportToCSV_rows_witness :
  exists summary csv prelude header,
    getCalculationSummary "192.168.1.0" 24 (Some 26) = ReturnSummary summary /\
    exportToCSV summary "1/1/2026, 10:00:00 AM" = Some csv /\
    List.length prelude = 11%nat /\
    nth_error prelude 10 = Some header /\
    List.length (split "," header) = 8%nat /\
    split (ascii_of_nat 10) csv
    = (prelude
       ++ map (fun s => join "," (csvFields s)) (Summary.subnets summary)
       ++ [EmptyString])%list.
Proof.
  eexists.
  destruct (exportToCSV_rows "192.168.1.0" 24 (Some 26) _
              "1/1/2026, 10:00:00 AM" eq_refl eq_refl)
    as (csv & prelude & header & H1 & H2 & H3 & H4 & H5 & _).
  exists csv, prelude, header.
  split; [reflexivity |]. repeat (split; [assumption |]). assumption.
Defined.

End CsvExport.

(** ** The usable range and the host count *)

Section UsableRange.

(** The block of a returned subnet, for a base prefix of at least 1 and a
    subnet prefix of at most 31. *)
Lemma returned_block (ip : string) (base : Z) (target : option Z)
      (subnets : list Subnet) (s : Subnet) :
  calculateSubnets ip base target = Return subnets -> In s subnets ->
  1 <= base -> prefix s <= 31 ->
  exists x,
    0 <= x /\ x + 2 ^ (32 - prefix s) <= 2 ^ 32 /\ 0 <= prefix s /\
    networkAddress s = intToIP x /\
    broadcastAddress s = intToIP (x + 2 ^ (32 - prefix s) - 1) /\
    firstUsable s = getFirstUsable (intToIP x) /\
    lastUsable s = getLastUsable (intToIP (x + 2 ^ (32 - prefix s) - 1)) /\
    usableHosts s = getUsableHosts (prefix s) /\
    totalAddresses s = getTotalAddresses (prefix s).
Proof.
  intros H Hs H1 H31.
  destruct (calculateSubnets_Return ip base target subnets H)
    as (Hip & Hb & [[_ ->] | (n & -> & Hn & ->)]).
  - destruct Hs as [<- | []].
    cbn [networkAddress broadcastAddress firstUsable lastUsable prefix
         usableHosts totalAddresses] in *.
    exists (ipToInt (getNetworkAddress ip base)).
    assert (Eb : intToIP (ipToInt (getNetworkAddress ip base) + 2 ^ (32 - base) - 1)
                 = getBroadcastAddress ip base).
    { rewrite <- getBroadcastAddress_last by (assumption || lia).
      symmetry. apply getBroadcastAddress_intToIP. }
    rewrite Eb, <- getNetworkAddress_intToIP.
    rewrite getNetworkAddress_int by (assumption || lia).
    destruct (block_bounds (ipToInt ip) (32 - base)) as [[Hlo _] Hhi];
      [lia | now apply ipToInt_range |].
    repeat split; (assumption || lia).
  - apply enumerated_In in Hs. destruct Hs as (i & Hi & ->).
    destruct (split_bounds ip base n i Hip H1 Hn Hi) as (H0 & HS & Hsum & _).
    cbn [subnetAt networkAddress broadcastAddress firstUsable lastUsable prefix
         usableHosts totalAddresses] in *.
    rewrite !ushr_0.
    rewrite (ToUint32_small (_ + i * _)) by (unfold isUint32; nia).
    rewrite ToUint32_small by (unfold isUint32; nia).
    exists (ipToInt (getNetworkAddress ip base) + i * 2 ^ (32 - n)).
    repeat split; try reflexivity; nia.
Qed.

(** X18.  In every returned subnet of prefix at most 30, from a base prefix of at
    least 1, the usable addresses lie strictly between the network and the
    broadcast address, there are exactly [usableHosts] of them, and the block
    from network to broadcast has [totalAddresses] addresses. *)
Theorem usable_range_matches_count (ip : string) (base : Z) (target : option Z)
        (subnets : list Subnet) (s : Subnet) :
  calculateSubnets ip base target = Return subnets -> In s subnets ->
  1 <= base -> prefix s <= 30 ->
  ipToInt (networkAddress s) < ipToInt (firstUsable s) /\
  ipToInt (firstUsable s) <= ipToInt (lastUsable s) /\
  ipToInt (lastUsable s) < ipToInt (broadcastAddress s) /\
  ipToInt (lastUsable s) - ipToInt (firstUsable s) + 1 = usableHosts s /\
  ipToInt (broadcastAddress s) - ipToInt (networkAddress s) + 1
  = totalAddresses s.
Proof.
  intros H Hs H1 H30.
  destruct (returned_block ip base target subnets s H Hs H1 ltac:(lia))
    as (x & Hx0 & Hx1 & Hp & -> & -> & -> & -> & -> & ->).
  assert (H4 : 2 ^ 2 <= 2 ^ (32 - prefix s)) by (apply Z.pow_le_mono_r; lia).
  change (2 ^ 2) with 4 in H4.
  rewrite getFirstUsable_int, getLastUsable_int by (unfold isUint32; lia).
  rewrite !ipToInt_intToIP by (unfold isUint32; lia).
  rewrite !Z.mod_small by lia.
  rewrite getUsableHosts_eq. unfold getTotalAddresses, Math_pow.
  destruct (Z.leb_spec 31 (prefix s)); lia.
Qed.

Lemma usable_range_matches_count_witness :
  let s := subnetAt (ipToInt (getNetworkAddress "192.168.1.0" 24)) (2 ^ (32 - 26)) 26 1 in
  ipToInt (networkAddress s) < ipToInt (firstUsable s) /\
  ipToInt (firstUsable s) <= ipToInt (lastUsable s) /\
  ipToInt (lastUsable s) < ipToInt (broadcastAddress s) /\
  ipToInt (lastUsable s) - ipToInt (firstUsable s) + 1 = usableHosts s /\
  ipToInt (broadcastAddress s) - ipToInt (networkAddress s) + 1
  = totalAddresses s.
Proof.
  intros s.
  apply (usable_range_matches_count "192.168.1.0" 24 (Some 26)
           (enumerated "192.168.1.0" 24 26) s).
  - reflexivity.
  - vm_compute. right. left. reflexivity.
  - lia.
  - vm_compute. discriminate.
Defined.

End UsableRange.

(** ** Rendering any integer *)

Section Wrapping.

Lemma ushr_ToUint32 (x k : Z) : ushr (ToUint32 x) k = ushr x k.
Proof.
  unfold ushr. f_equal. unfold ToUint32. apply Z.mod_mod. lia.
Qed.

Lemma band_255_ToUint32 (x : Z) : band (ToUint32 x) 255 = band x 255.
Proof.
  rewrite !band_255. unfold ToUint32.
  change (2 ^ 32) with (256 * 16777216).
  rewrite Z.rem_mul_r by lia.
  rewrite Z.mul_comm, Z.mod_add by lia. apply Z.mod_mod. lia.
Qed.

(** X19.  [intToIP] takes its argument modulo 2^32, whatever integer it is given,
    and always renders a valid address text. *)
Theorem intToIP_wraps (x : Z) :
  intToIP x = intToIP (x mod 2 ^ 32) /\ isValidIP (intToIP x) = true.
Proof.
  assert (E : intToIP x = intToIP (ToUint32 x)).
  { unfold intToIP. now rewrite !ushr_ToUint32, band_255_ToUint32. }
  split; [exact E |].
  rewrite E. apply isValidIP_intToIP, ToUint32_range.
Qed.

End Wrapping.

(** ** The single network and the usable range at the end prefixes *)

(** For the prefixes 1 to 31 the single network is the base network: its
    network address is the address with the [32 - p] host bits cleared, its
    broadcast address is the last address of that block, the usable range
    runs from the one after the network address to the one before the
    broadcast address, the mask has [p] leading ones, and the counts are
    those of the prefix. *)
Lemma calculateSubnets_no_split_values (ip : string) (p : Z) :
  isValidIP ip = true -> 1 <= p <= 31 ->
  exists s,
    calculateSubnets ip p None = Return [s] /\
    calculateSubnets ip p (Some p) = Return [s] /\
    subnetNumber s = 1 /\
    ipToInt (networkAddress s) = 2 ^ (32 - p) * (ipToInt ip / 2 ^ (32 - p)) /\
    ipToInt (broadcastAddress s)
    = ipToInt (networkAddress s) + 2 ^ (32 - p) - 1 /\
    ipToInt (firstUsable s) = ipToInt (networkAddress s) + 1 /\
    ipToInt (lastUsable s) = ipToInt (broadcastAddress s) - 1 /\
    usableHosts s = (if p =? 31 then 0 else 2 ^ (32 - p) - 2) /\
    ipToInt (subnetMask s) = 2 ^ 32 - 2 ^ (32 - p) /\
    prefix s = p /\
    totalAddresses s = 2 ^ (32 - p).
Proof.
  intros Hip Hp.
  eexists. split; [apply calculateSubnets_single; auto; lia |].
  split; [apply calculateSubnets_single; auto; lia |].
  cbn [subnetNumber networkAddress broadcastAddress firstUsable lastUsable
       usableHosts subnetMask prefix totalAddresses].
  destruct (block_bounds (ipToInt ip) (32 - p)) as [[Hlo _] Hhi];
    [lia | now apply ipToInt_range |].
  pose proof (pow2_ge_2 (32 - p) ltac:(lia)) as H2.
  assert (En : ipToInt (getNetworkAddress ip p)
               = 2 ^ (32 - p) * (ipToInt ip / 2 ^ (32 - p)))
    by (apply getNetworkAddress_int; (assumption || lia)).
  assert (Eb : ipToInt (getBroadcastAddress ip p)
               = ipToInt (getNetworkAddress ip p) + 2 ^ (32 - p) - 1)
    by (apply getBroadcastAddress_last; (assumption || lia)).
  split; [reflexivity |]. split; [exact En |]. split; [exact Eb |].
  split.
  { rewrite (getNetworkAddress_intToIP ip p) at 1.
    rewrite getFirstUsable_int by apply getNetworkAddress_range.
    apply Z.mod_small. lia. }
  split.
  { rewrite (getBroadcastAddress_intToIP ip p) at 1.
    rewrite getLastUsable_int by (unfold isUint32; lia).
    apply Z.mod_small. lia. }
  split.
  { rewrite getUsableHosts_eq.
    destruct (Z.leb_spec 31 p), (Z.eqb_spec p 31); (reflexivity || lia). }
  split; [apply prefixToMask_int; lia |].
  split; reflexivity.
Qed.

Lemma calculateSubnets_no_split_values_witness :
  exists s,
    calculateSubnets "192.168.1.77" 24 None = Return [s] /\
    calculateSubnets "192.168.1.77" 24 (Some 24) = Return [s] /\
    ipToInt (networkAddress s) = 2 ^ (32 - 24) * (ipToInt "192.168.1.77" / 2 ^ (32 - 24)) /\
    ipToInt (broadcastAddress s) = ipToInt (networkAddress s) + 2 ^ (32 - 24) - 1.
Proof.
  destruct (calculateSubnets_no_split_values "192.168.1.77" 24)
    as (s & H1 & H2 & _ & Hn & Hb & _); [reflexivity | lia |].
  exists s. repeat (split; [assumption |]). assumption.
Defined.

(** C9, at the prefixes 32 and 0.  Without a target prefix, and with the
    target equal to the base prefix, 192.168.1.5/32 gives the same single
    subnet, but its broadcast address is "255.255.255.255" and its last
    usable address "255.255.255.254", not those of the network 192.168.1.5/32
    itself, whose broadcast address is "192.168.1.5": the split of
    192.168.1.4/31 gives that to its second /32 subnet.  At prefix 0 the
    single subnet carries the unmasked address "192.168.1.5" as network
    address and the mask "255.255.255.255", not "0.0.0.0" for both. *)
Theorem calculateSubnets_no_split_32_and_0 :
  isValidIP "192.168.1.5" = true /\
  isValidPrefix 32 = true /\ isValidPrefix 0 = true /\
  (exists s,
     calculateSubnets "192.168.1.5" 32 None = Return [s] /\
     calculateSubnets "192.168.1.5" 32 (Some 32) = Return [s] /\
     prefix s = 32 /\
     networkAddress s = "192.168.1.5" /\
     broadcastAddress s = "255.255.255.255" /\
     lastUsable s = "255.255.255.254" /\
     ipToInt (broadcastAddress s)
     <> ipToInt (networkAddress s) + 2 ^ (32 - 32) - 1) /\
  (exists s1 s2,
     calculateSubnets "192.168.1.4" 31 (Some 32) = Return [s1; s2] /\
     prefix s2 = 32 /\
     networkAddress s2 = "192.168.1.5" /\
     broadcastAddress s2 = "192.168.1.5") /\
  (exists s,
     calculateSubnets "192.168.1.5" 0 None = Return [s] /\
     calculateSubnets "192.168.1.5" 0 (Some 0) = Return [s] /\
     prefix s = 0 /\
     networkAddress s = "192.168.1.5" /\
     subnetMask s = "255.255.255.255" /\
     ipToInt (networkAddress s)
     <> 2 ^ (32 - 0) * (ipToInt "192.168.1.5" / 2 ^ (32 - 0))).
Proof.
  split; [reflexivity |]. split; [reflexivity |]. split; [reflexivity |].
  split; [| split].
  - eexists. split; [vm_compute; reflexivity |].
    split; [vm_compute; reflexivity |].
    cbn [prefix networkAddress broadcastAddress lastUsable].
    repeat (split; [reflexivity |]). vm_compute. discriminate.
  - eexists. eexists. split; [vm_compute; reflexivity |].
    cbn [prefix networkAddress broadcastAddress].
    repeat split; reflexivity.
  - eexists. split; [vm_compute; reflexivity |].
    split; [vm_compute; reflexivity |].
    cbn [prefix networkAddress subnetMask].
    repeat (split; [reflexivity |]). vm_compute. discriminate.
Qed.

(** C5, at base prefix 0.  [getNetworkAddress ip 0] leaves the address
    unchanged, so the blocks of a split of a /0 network wrap around modulo
    2^32: in the split of 0.0.0.1/0 into two /1 networks the second subnet
    (prefix 1, 2147483646 usable hosts) has broadcast address "0.0.0.0" and
    last usable address "255.255.255.255", which is not the broadcast integer
    minus 1; and the single network 255.255.255.255/0 has network address
    "255.255.255.255" and first usable address "0.0.0.0", which is not the
    network integer plus 1. *)
Theorem usable_range_base_0 :
  isValidIP "0.0.0.1" = true /\ isValidIP "255.255.255.255" = true /\
  isValidPrefix 0 = true /\ isValidPrefix 1 = true /\
  (exists s1 s2,
     calculateSubnets "0.0.0.1" 0 (Some 1) = Return [s1; s2] /\
     prefix s2 = 1 /\ prefix s2 <= 30 /\
     usableHosts s2 = 2147483646 /\
     networkAddress s2 = "128.0.0.1" /\
     broadcastAddress s2 = "0.0.0.0" /\
     lastUsable s2 = "255.255.255.255" /\
     ipToInt (lastUsable s2) <> ipToInt (broadcastAddress s2) - 1) /\
  (exists s,
     calculateSubnets "255.255.255.255" 0 None = Return [s] /\
     prefix s = 0 /\ prefix s <= 30 /\
     networkAddress s = "255.255.255.255" /\
     firstUsable s = "0.0.0.0" /\
     ipToInt (firstUsable s) <> ipToInt (networkAddress s) + 1).
Proof.
  split; [reflexivity |]. split; [reflexivity |].
  split; [reflexivity |]. split; [reflexivity |].
  split.
  - eexists. eexists. split; [vm_compute; reflexivity |].
    cbn [prefix usableHosts networkAddress broadcastAddress lastUsable].
    split; [reflexivity |]. split; [lia |].
    repeat (split; [reflexivity |]). vm_compute. discriminate.
  - eexists. split; [vm_compute; reflexivity |].
    cbn [prefix networkAddress firstUsable].
    split; [reflexivity |]. split; [lia |].
    repeat (split; [reflexivity |]). vm_compute. discriminate.
Qed.
